(** * Source-Map-Extractor: grab_sources_from_site.py

    A shallow embedding of the script and the properties of its path
    clean-up, its [sourceMappingURL] extraction, its map decoding and its
    per-source recovery loops.

    Python [str] values are modelled as [string]; a character stands for the
    code point of the same number (0..255).  The libraries the script calls
    ([requests], [json], [base64], [urllib.parse.urljoin], [BeautifulSoup])
    are oracles gathered in a [World]; [re], [posixpath] and the [str]
    methods the script relies on are modelled concretely. *)

From Stdlib Require Import String Ascii List Bool Arith Lia ZArith.
From Stdlib Require Import DecimalString.
Import ListNotations.

Open Scope list_scope.
Open Scope string_scope.

(** ** Python [str] methods *)

Module Py.

Definition code (c : ascii) : nat := nat_of_ascii c.

(** [str.isspace] on one character, restricted to code points below 256;
    it is also what [\s] matches in a [str] pattern. *)
Definition isspace (c : ascii) : bool :=
  let n := code c in
  ((9 <=? n)%nat && (n <=? 13)%nat) || ((28 <=? n)%nat && (n <=? 32)%nat)
  || (n =? 133)%nat || (n =? 160)%nat.

(** Truth value of a [str]. *)
Definition truthy (s : string) : bool :=
  match s with EmptyString => false | String _ _ => true end.

Fixpoint prefixb (p s : string) : bool :=
  match p with
  | EmptyString => true
  | String c p' =>
      match s with
      | String d s' => Ascii.eqb c d && prefixb p' s'
      | EmptyString => false
      end
  end.

(** [s.startswith(p)]. *)
Definition startswith (s p : string) : bool := prefixb p s.

Fixpoint lstrip_by (cs : ascii -> bool) (s : string) : string :=
  match s with
  | EmptyString => EmptyString
  | String c s' => if cs c then lstrip_by cs s' else s
  end.

Fixpoint rstrip_by (cs : ascii -> bool) (s : string) : string :=
  match s with
  | EmptyString => EmptyString
  | String c s' =>
      match rstrip_by cs s' with
      | EmptyString => if cs c then EmptyString else String c EmptyString
      | r => String c r
      end
  end.

Definition strip_by (cs : ascii -> bool) (s : string) : string :=
  lstrip_by cs (rstrip_by cs s).

(** Membership of a character in the argument of [strip(chars)]. *)
Fixpoint mem (c : ascii) (chars : string) : bool :=
  match chars with
  | EmptyString => false
  | String d r => Ascii.eqb c d || mem c r
  end.

(** [s.lstrip(chars)], [s.rstrip(chars)], [s.strip(chars)], [s.strip()]. *)
Definition lstrip (chars s : string) : string := lstrip_by (fun c => mem c chars) s.
Definition rstrip (chars s : string) : string := rstrip_by (fun c => mem c chars) s.
Definition strip (chars s : string) : string := strip_by (fun c => mem c chars) s.
Definition strip_ws (s : string) : string := strip_by isspace s.

(** [sub in s]. *)
Fixpoint contains (sub s : string) : bool :=
  prefixb sub s ||
  match s with
  | EmptyString => false
  | String _ s' => contains sub s'
  end.

(** [s.split(sep, 1)] for a one-character separator, as the pair the
    script unpacks it into; [None] when [sep] does not occur, where the
    unpacking raises [ValueError]. *)
Fixpoint split_once (sep : ascii) (s : string) : option (string * string) :=
  match s with
  | EmptyString => None
  | String c s' =>
      if Ascii.eqb c sep then Some (EmptyString, s')
      else match split_once sep s' with
           | Some (h, t) => Some (String c h, t)
           | None => None
           end
  end.

Fixpoint endswith_char (s : string) (c : ascii) : bool :=
  match s with
  | EmptyString => false
  | String d EmptyString => Ascii.eqb d c
  | String _ s' => endswith_char s' c
  end.

(** [s[:n]]. *)
Fixpoint take (n : nat) (s : string) : string :=
  match n, s with
  | S n', String c s' => String c (take n' s')
  | _, _ => EmptyString
  end.

(** [str(n)] for a non-negative [int]. *)
Definition str_of_nat (n : nat) : string := NilZero.string_of_uint (Nat.to_uint n).

(** [str.encode("utf-8")] on code points below 256. *)
Fixpoint encode_utf8 (s : string) : list ascii :=
  match s with
  | EmptyString => []
  | String c s' =>
      let n := code c in
      if (n <? 128)%nat then c :: encode_utf8 s'
      else ascii_of_nat (192 + n / 64) :: ascii_of_nat (128 + n mod 64) :: encode_utf8 s'
  end.

End Py.

(** ** [posixpath] *)

Module PosixPath.

(** [os.path.join(a, b)]. *)
Definition join (a b : string) : string :=
  if Py.startswith b "/" then b
  else if negb (Py.truthy a) || Py.endswith_char a "/" then a ++ b
  else a ++ "/" ++ b.

(** [p[:p.rfind('/') + 1]]. *)
Fixpoint head_upto_last_slash (p : string) : string :=
  match p with
  | EmptyString => EmptyString
  | String c p' =>
      if Py.contains "/" (String c p') then String c (head_upto_last_slash p')
      else EmptyString
  end.

Fixpoint all_slashes (s : string) : bool :=
  match s with
  | EmptyString => true
  | String c s' => Ascii.eqb c "/" && all_slashes s'
  end.

(** [os.path.dirname(p)]. *)
Definition dirname (p : string) : string :=
  let head := head_upto_last_slash p in
  if Py.truthy head && negb (all_slashes head) then Py.rstrip "/" head else head.

End PosixPath.

(** ** The fragment of [re] the script uses

    Patterns are kept as syntax and run by a backtracking matcher with
    Python's priorities: alternatives left to right, repetitions greedy.
    Repetition is only needed over single-character classes. *)

Module Re.

Inductive regex : Type :=
| Lit (l : string)                                  (* literal text *)
| Rep (cs : ascii -> bool) (lo : nat) (hi : option nat)  (* cs{lo,hi}, greedy *)
| Bol                                               (* ^ *)
| Eol                                               (* $ *)
| Group (name : string) (r : regex)                 (* (?P<name>r) *)
| Seq (r1 r2 : regex)
| Alt (r1 r2 : regex).

Definition captures := list (string * string).

Fixpoint lookup (name : string) (caps : captures) : option string :=
  match caps with
  | [] => None
  | (n, v) :: rest => if String.eqb n name then Some v else lookup name rest
  end.

(** Character classes. *)
Definition dot (c : ascii) : bool := negb (Ascii.eqb c "010").       (* . *)
Definition lower (c : ascii) : bool :=                                 (* [a-z] *)
  (97 <=? Py.code c)%nat && (Py.code c <=? 122)%nat.
Definition slash (c : ascii) : bool := Ascii.eqb c "/".               (* / *)
Definition space (c : ascii) : bool := Py.isspace c.                   (* \s *)

Definition below (n : nat) (hi : option nat) : bool :=
  match hi with None => true | Some h => (n <? h)%nat end.

(** A position in the subject: the character just before it ([None] at the
    start of the string) and the text from it on. *)
Definition cont (R : Type) : Type := option ascii -> string -> captures -> option R.

Fixpoint lit_match (l : string) (prev : option ascii) (s : string)
  : option (option ascii * string) :=
  match l with
  | EmptyString => Some (prev, s)
  | String c l' =>
      match s with
      | String d s' => if Ascii.eqb c d then lit_match l' (Some d) s' else None
      | EmptyString => None
      end
  end.

(** Greedy repetition: take one more character when allowed, fall back to
    stopping here when the rest of the pattern fails further on. *)
Fixpoint rep_greedy {R : Type} (cs : ascii -> bool) (lo : nat) (hi : option nat)
    (n : nat) (prev : option ascii) (s : string)
    (k : option ascii -> string -> option R) : option R :=
  let stop := if (lo <=? n)%nat then k prev s else None in
  match s with
  | String c s' =>
      if cs c && below n hi then
        match rep_greedy cs lo hi (S n) (Some c) s' k with
        | Some r => Some r
        | None => stop
        end
      else stop
  | EmptyString => stop
  end.

Definition at_bol (multiline : bool) (prev : option ascii) : bool :=
  match prev with
  | None => true
  | Some c => multiline && Ascii.eqb c "010"
  end.

Definition at_eol (multiline : bool) (s : string) : bool :=
  match s with
  | EmptyString => true
  | String c s' =>
      Ascii.eqb c "010" &&
      (multiline || match s' with EmptyString => true | _ => false end)
  end.

Section Exec.
Variable multiline : bool.     (* re.MULTILINE *)

Fixpoint exec {R : Type} (r : regex) (prev : option ascii) (s : string)
    (caps : captures) (k : cont R) : option R :=
  match r with
  | Lit l =>
      match lit_match l prev s with
      | Some (prev', s') => k prev' s' caps
      | None => None
      end
  | Rep cs lo hi =>
      rep_greedy cs lo hi 0 prev s (fun prev' s' => k prev' s' caps)
  | Bol => if at_bol multiline prev then k prev s caps else None
  | Eol => if at_eol multiline s then k prev s caps else None
  | Group name r1 =>
      exec r1 prev s caps (fun prev' s' caps' =>
        k prev' s' ((name, Py.take (String.length s - String.length s') s) :: caps'))
  | Seq r1 r2 =>
      exec r1 prev s caps (fun prev' s' caps' => exec r2 prev' s' caps' k)
  | Alt r1 r2 =>
      match exec r1 prev s caps k with
      | Some x => Some x
      | None => exec r2 prev s caps k
      end
  end.

(** A match object: where the match ends and what the groups hold. *)
Record match_obj : Type := MatchObj {
  m_prev : option ascii;
  m_rest : string;
  m_caps : captures
}.

Definition match_here (r : regex) (prev : option ascii) (s : string) : option match_obj :=
  exec r prev s [] (fun p' s' c' => Some (MatchObj p' s' c')).

(** [pattern.search(s)]: the match at the leftmost position that has one,
    with the number of characters before it. *)
Fixpoint search_from (r : regex) (prev : option ascii) (s : string) (pos : nat)
  : option (nat * match_obj) :=
  match match_here r prev s with
  | Some m => Some (pos, m)
  | None =>
      match s with
      | EmptyString => None
      | String c s' => search_from r (Some c) s' (S pos)
      end
  end.

Definition search (r : regex) (s : string) : option (nat * match_obj) :=
  search_from r None s 0.

(** [re.sub(pattern, repl, s)] for a replacement without group
    references: every non-overlapping match, left to right. *)
Fixpoint sub_from (fuel : nat) (r : regex) (repl : string)
    (prev : option ascii) (s : string) : string :=
  match fuel with
  | O => s
  | S fuel' =>
      let step :=
        match s with
        | EmptyString => EmptyString
        | String c s' => String c (sub_from fuel' r repl (Some c) s')
        end in
      match match_here r prev s with
      | Some m =>
          if (String.length (m_rest m) <? String.length s)%nat
          then repl ++ sub_from fuel' r repl (m_prev m) (m_rest m)
          else repl ++ step
      | None => step
      end
  end.

Definition sub (r : regex) (repl s : string) : string :=
  sub_from (S (String.length s)) r repl None s.

End Exec.

(** [m.group(name)]: [None] when the group took no part in the match. *)
Definition group (m : match_obj) (name : string) : option string :=
  lookup name (m_caps m).

End Re.

(** ** The script's pure functions *)

(** [sm_re] (line 64), compiled with [re.MULTILINE]:
    [//# sourceMappingURL=(?P<url>.+)$|/\*# sourceMappingURL=(?P<url2>.+)\s*\*/] *)
Definition sm_line_re : Re.regex :=
  Re.Seq (Re.Lit "//# sourceMappingURL=")
    (Re.Seq (Re.Group "url" (Re.Rep Re.dot 1 None)) Re.Eol).

Definition sm_block_re : Re.regex :=
  Re.Seq (Re.Lit "/*# sourceMappingURL=")
    (Re.Seq (Re.Group "url2" (Re.Rep Re.dot 1 None))
       (Re.Seq (Re.Rep Re.space 0 None) (Re.Lit "*/"))).

Definition sm_re : Re.regex := Re.Alt sm_line_re sm_block_re.

(** [a or b] on the results of [m.group]. *)
Definition py_or (a b : option string) : option string :=
  match a with
  | Some s => if Py.truthy s then a else b
  | None => b
  end.

(** [extract_mapping_reference] (lines 66-71).  [None] is Python's [None];
    the last [None] stands for [None.strip()], which no match reaches
    because one of the two groups always takes part. *)
Definition extract_mapping_reference (js_text : string) : option string :=
  match Re.search true sm_re js_text with
  | None => None
  | Some (_, m) =>
      match py_or (Re.group m "url") (Re.group m "url2") with
      | Some url => Some (Py.strip_ws url)
      | None => None
      end
  end.

(** The pattern of line 182, [^[a-z]+:/{0,3}], compiled without flags. *)
Definition scheme_re : Re.regex :=
  Re.Seq Re.Bol
    (Re.Seq (Re.Rep Re.lower 1 None)
       (Re.Seq (Re.Lit ":") (Re.Rep Re.slash 0 (Some 3)))).

(** The path clean-up of the remote branch (lines 180-185). *)
Definition sanitize (src src_root : string) : string :=
  let cleaned := src in
  let cleaned := Re.sub false scheme_re "" cleaned in
  let cleaned := Py.lstrip "/" cleaned in
  if Py.truthy src_root
  then PosixPath.join (Py.strip "/" src_root) cleaned
  else cleaned.

(** The file name of the inline branch (lines 134-136). *)
Definition inline_filename (src src_root : string) : string :=
  if Py.truthy src_root then PosixPath.join src_root src else src.

(** ** The world outside the script *)

(** A [requests.Response], as far as the script looks at it. *)
Record Response : Type := {
  status_code : nat;
  text : string;
  url : string;       (* the final URL, after redirects *)
  reason : string
}.

(** A parsed source map: a non-empty JSON object whose fields have the
    types of a source map.  [sourceRoot] is [""] when the key is missing or
    null, [sources] is [[]] when missing, [sourcesContent] is [[]] when
    missing or null and holds [None] for a null entry; the script treats
    these alike. *)
Record SourceMap : Type := {
  sourceRoot : string;
  sources : list string;
  sourcesContent : list (option string)
}.

(** What [json.loads] returns: a value Python takes for false ([null],
    [false], [0], [""], [[]], [{}]) or a source map.  Other JSON values are
    outside the model. *)
Inductive json : Type :=
| JFalsy
| JMap (d : SourceMap).

(** A [<script>] element, as BeautifulSoup hands it over. *)
Record ScriptTag : Type := {
  tag_src : option string;       (* s.get("src") *)
  tag_string : option string     (* s.string *)
}.

Inductive event : Type :=
| EvMakedirs (path : string)                 (* os.makedirs(path, exist_ok=True) *)
| EvGet (target : string)                    (* session.get(target, timeout=20) *)
| EvWrite (path : string) (data : list ascii) (* open(path, "wb") and f.write(data) *)
| EvPrint (line : string).                   (* print(line) *)

Record World : Type := {
  (** outcome of the [n]-th request of the run, a GET of the given URL:
      the message of the exception it raises, or the response *)
  session_get : nat -> string -> string + Response;
  (** [json.loads]: the message of the [ValueError] it raises, or the value *)
  json_loads : string -> string + json;
  (** [base64.b64decode]: the message of the [binascii.Error], or the bytes *)
  b64decode : string -> string + string;
  urljoin : string -> string -> string;
  (** [soup.find_all("script")] on the parsed page *)
  find_all_script : string -> list ScriptTag;
  (** [os.path.exists] after the given events *)
  path_exists : list event -> string -> bool
}.

(** ** Exceptions and state *)

Inductive exn : Type :=
| SystemExit (code : nat)
| RequestException (msg : string)
| HTTPError (msg : string)
| ValueError (msg : string)
| OSError (msg : string).

(** [str(e)]. *)
Definition exn_str (e : exn) : string :=
  match e with
  | SystemExit code => Py.str_of_nat code
  | RequestException msg | HTTPError msg | ValueError msg | OSError msg => msg
  end.

(** [except Exception] lets [SystemExit] through. *)
Definition is_Exception (e : exn) : bool :=
  match e with SystemExit _ => false | _ => true end.

(** What the run has done so far, oldest first, and the two counters. *)
Record State : Type := {
  events : list event;
  processed_maps : nat;
  saved_files : nat
}.

Definition initial : State :=
  {| events := []; processed_maps := 0; saved_files := 0 |}.

Inductive Result (A : Type) : Type :=
| Ret (a : A)
| Raise (e : exn).
Arguments Ret {A} a.
Arguments Raise {A} e.

Definition M (A : Type) : Type := State -> Result A * State.

Definition ret {A : Type} (a : A) : M A := fun st => (Ret a, st).
Definition raise {A : Type} (e : exn) : M A := fun st => (Raise e, st).

Definition bind {A B : Type} (m : M A) (f : A -> M B) : M B :=
  fun st =>
    match m st with
    | (Ret a, st') => f a st'
    | (Raise e, st') => (Raise e, st')
    end.

(** [try: m  except Exception as e: h e] *)
Definition try_except {A : Type} (m : M A) (h : exn -> M A) : M A :=
  fun st =>
    match m st with
    | (Ret a, st') => (Ret a, st')
    | (Raise e, st') => if is_Exception e then h e st' else (Raise e, st')
    end.

Declare Scope monad_scope.
Delimit Scope monad_scope with monad.
Notation "x <- m ;; k" := (bind m (fun x => k))
  (at level 61, m at next level, right associativity) : monad_scope.
Notation "m ;; k" := (bind m (fun _ => k))
  (at level 61, right associativity) : monad_scope.
Open Scope monad_scope.

Definition add_event (e : event) (st : State) : State :=
  {| events := (events st ++ [e])%list;
     processed_maps := processed_maps st;
     saved_files := saved_files st |}.

Definition emit (e : event) : M unit := fun st => (Ret tt, add_event e st).

Definition print (line : string) : M unit := emit (EvPrint line).
Definition os_makedirs (path : string) : M unit := emit (EvMakedirs path).

Definition incr_processed_maps : M unit :=
  fun st => (Ret tt, {| events := events st;
                        processed_maps := processed_maps st + 1;
                        saved_files := saved_files st |}).

Definition incr_saved_files : M unit :=
  fun st => (Ret tt, {| events := events st;
                        processed_maps := processed_maps st;
                        saved_files := saved_files st + 1 |}).

(** [for i, x in enumerate(l): body i x], counting from [i]. *)
Fixpoint for_enumerate {A : Type} (i : nat) (l : list A) (body : nat -> A -> M unit)
  : M unit :=
  match l with
  | [] => ret tt
  | x :: l' => body i x ;; for_enumerate (S i) l' body
  end.

Fixpoint for_each {A : Type} (l : list A) (body : A -> M unit) : M unit :=
  match l with
  | [] => ret tt
  | x :: l' => body x ;; for_each l' body
  end.

(** The URLs requested, the files written, the lines printed and the
    directories made by a run of events, in order. *)
Definition ev_requests (evs : list event) : list string :=
  flat_map (fun e => match e with EvGet u => [u] | _ => [] end) evs.

Definition ev_writes (evs : list event) : list (string * list ascii) :=
  flat_map (fun e => match e with EvWrite p d => [(p, d)] | _ => [] end) evs.

Definition ev_stdout (evs : list event) : list string :=
  flat_map (fun e => match e with EvPrint l => [l] | _ => [] end) evs.

Definition ev_made_dirs (evs : list event) : list string :=
  flat_map (fun e => match e with EvMakedirs p => [p] | _ => [] end) evs.

Definition requests (st : State) : list string := ev_requests (events st).
Definition writes (st : State) : list (string * list ascii) := ev_writes (events st).
Definition stdout (st : State) : list string := ev_stdout (events st).
Definition made_dirs (st : State) : list string := ev_made_dirs (events st).

(** A script entry (lines 57 and 60): the URL of a remote script, or the
    dict [{"inline": True, "content": ...}]. *)
Inductive entry : Type :=
| Remote (js_url : string)
| Inline (content : string).

(** ** The script *)

Section Script.
Context (w : World).
Variable out_dir : string.    (* sys.argv[2] *)

(** [session.get(target, timeout=20)] *)
Definition get (target : string) : M Response :=
  fun st =>
    let n := List.length (requests st) in
    let st' := add_event (EvGet target) st in
    match session_get w n target with
    | inl msg => (Raise (RequestException msg), st')
    | inr r => (Ret r, st')
    end.

(** [r.raise_for_status()] *)
Definition raise_for_status (r : Response) : M unit :=
  let code := status_code r in
  if (400 <=? code)%nat && (code <? 500)%nat then
    raise (HTTPError (Py.str_of_nat code ++ " Client Error: " ++ reason r
                        ++ " for url: " ++ url r))
  else if (500 <=? code)%nat && (code <? 600)%nat then
    raise (HTTPError (Py.str_of_nat code ++ " Server Error: " ++ reason r
                        ++ " for url: " ++ url r))
  else ret tt.

(** [json.loads(s)], and [r.json()] as [json.loads] of the body *)
Definition loads (s : string) : M json :=
  match json_loads w s with
  | inl msg => raise (ValueError msg)
  | inr j => ret j
  end.

Definition decode_b64 (s : string) : M string :=
  match b64decode w s with
  | inl msg => raise (ValueError msg)
  | inr raw => ret raw
  end.

(** lines 36-39 *)
Definition get_text (target : string) : M (string * string) :=
  r <- get target ;;
  raise_for_status r ;;
  ret (text r, url r).

(** lines 41-49 *)
Definition save_file (path content : string) : M unit :=
  let full := PosixPath.join out_dir path in
  let d := PosixPath.dirname full in
  (fun st =>
     if Py.truthy d && negb (path_exists w (events st) d)
     then os_makedirs d st
     else ret tt st) ;;
  emit (EvWrite full (Py.encode_utf8 content)).

(** lines 51-61 *)
Definition find_scripts_from_html (html base_url : string) : list entry :=
  map (fun s =>
         match tag_src s with
         | Some (String c src') => Remote (urljoin w base_url (String c src'))
         | _ => Inline (match tag_string s with
                        | Some (String c t) => String c t
                        | _ => ""
                        end)
         end)
      (find_all_script w html).

(** lines 73-96; [None] is Python's [None] *)
Definition handle_map_url (map_url_or_data js_base_url : string) : M (option json) :=
  if Py.startswith map_url_or_data "data:" then
    match Py.split_once "," map_url_or_data with
    | None => ret None
    | Some (header, b64) =>
        if Py.contains "base64" header then
          raw <- decode_b64 b64 ;;
          j <- loads raw ;;
          ret (Some j)
        else
          j <- loads b64 ;;
          ret (Some j)
    end
  else
    let full_map_url := urljoin w js_base_url map_url_or_data in
    try_except
      (r <- get full_map_url ;;
       raise_for_status r ;;
       j <- loads (text r) ;;
       ret (Some j))
      (fun e =>
         print ("Failed to fetch/parse map at " ++ full_map_url ++ ": " ++ exn_str e) ;;
         ret None).

(** lines 98-107 *)
Definition try_fetch_source_by_url (source_path map_url : string) : M (option string) :=
  try_except
    (let candidate := urljoin w map_url source_path in
     r <- get candidate ;;
     if (status_code r =? 200)%nat && Py.truthy (Py.strip_ws (text r))
     then ret (Some (text r))
     else ret None)
    (fun _ => ret None).

(** [contents and i < len(contents) and contents[i] is not None], with
    the entry when the test holds *)
Definition embedded (contents : list (option string)) (i : nat) : option string :=
  match nth_error contents i with
  | Some (Some c) => Some c
  | _ => None
  end.

(** body of the loop of lines 133-146 *)
Definition inline_source (final_page_url src_root : string)
    (contents : list (option string)) (i : nat) (src : string) : M unit :=
  let filename := inline_filename src src_root in
  content <- match embedded contents i with
             | Some c => ret (Some c)
             | None => try_fetch_source_by_url src final_page_url
             end ;;
  match content with
  | Some c => save_file filename c ;; incr_saved_files
  | None => ret tt
  end.

(** body of the loop of lines 177-198 *)
Definition remote_source (js_final_url sm src_root : string)
    (contents : list (option string)) (i : nat) (src : string) : M unit :=
  let cleaned := sanitize src src_root in
  content <- match embedded contents i with
             | Some c => ret (Some c)
             | None =>
                 let map_url_guess :=
                   if negb (Py.startswith sm "data:")
                   then urljoin w js_final_url sm
                   else js_final_url in
                 try_fetch_source_by_url src map_url_guess
             end ;;
  match content with
  | None => print (" - Could not obtain content for source: " ++ src)
  | Some c =>
      save_file cleaned c ;;
      incr_saved_files ;;
      print (" - Saved: " ++ cleaned)
  end.

(** [f"{sm}"] for a value that may be [None] *)
Definition fmt_opt (sm : option string) : string :=
  match sm with Some s => s | None => "None" end.

(** lines 118-147: one inline entry *)
Definition inline_entry (final_page_url js_text : string) : M unit :=
  let sm := extract_mapping_reference js_text in
  let js_base := final_page_url in
  print ("Inline script mapping: " ++ fmt_opt sm) ;;
  match sm with
  | Some (String c sm') =>
      let sm := String c sm' in
      sm_json <- handle_map_url sm js_base ;;
      match sm_json with
      | Some (JMap d) =>
          incr_processed_maps ;;
          for_enumerate 0 (sources d)
            (inline_source final_page_url (sourceRoot d) (sourcesContent d))
      | _ => ret tt
      end
  | _ => ret tt
  end.

(** lines 149-198: one remote entry *)
Definition remote_entry (js_url : string) : M unit :=
  fetched <- try_except
               (r <- get js_url ;;
                raise_for_status r ;;
                ret (Some (text r, url r)))
               (fun e =>
                  print ("Failed to fetch JS " ++ js_url ++ ": " ++ exn_str e) ;;
                  ret None) ;;
  match fetched with
  | None => ret tt
  | Some (js_text, js_final_url) =>
      match extract_mapping_reference js_text with
      | Some (String c sm') =>
          let sm := String c sm' in
          print ("Found map reference for " ++ js_url ++ ": " ++ sm) ;;
          sm_json <- handle_map_url sm js_final_url ;;
          match sm_json with
          | Some (JMap d) =>
              incr_processed_maps ;;
              for_enumerate 0 (sources d)
                (remote_source js_final_url sm (sourceRoot d) (sourcesContent d))
          | _ => print ("Could not load map for " ++ js_url)
          end
      | _ => print ("No sourceMappingURL found in " ++ js_url)
      end
  end.

(** lines 117-198 *)
Definition process_entry (final_page_url : string) (e : entry) : M unit :=
  match e with
  | Inline js_text => inline_entry final_page_url js_text
  | Remote js_url => remote_entry js_url
  end.

(** lines 110-200 *)
Definition main (page_url : string) : M unit :=
  page <- get_text page_url ;;
  let '(html, final_page_url) := page in
  let script_entries := find_scripts_from_html html final_page_url in
  print ("Found " ++ Py.str_of_nat (List.length script_entries)
           ++ " script entries on " ++ final_page_url) ;;
  for_each script_entries (process_entry final_page_url) ;;
  (fun st =>
     print ("Processed " ++ Py.str_of_nat (processed_maps st) ++ " maps, saved "
              ++ Py.str_of_nat (saved_files st) ++ " files to '" ++ out_dir ++ "'.") st).

End Script.

(** The whole module, run on [sys.argv] (lines 24-200). *)
Definition script (w : World) (argv : list string) : M unit :=
  if (List.length argv <? 3)%nat then
    print "Usage: python grab_sources_from_site.py <page-url> <output-dir>" ;;
    raise (SystemExit 1)
  else
    let page_url := Py.rstrip "/" (nth 1 argv "") in
    let out_dir := nth 2 argv "" in
    os_makedirs out_dir ;;
    main w out_dir page_url.

Definition run (w : World) (argv : list string) : Result unit * State :=
  script w argv initial.

(** ** Notions the properties are stated with *)

Fixpoint forallb_str (cs : ascii -> bool) (w : string) : bool :=
  match w with
  | EmptyString => true
  | String c w' => cs c && forallb_str cs w'
  end.

(** The character before the position reached after reading [w]. *)
Fixpoint last_char (w : string) (prev : option ascii) : option ascii :=
  match w with
  | EmptyString => prev
  | String c w' => last_char w' (Some c)
  end.

(** Whether [len] more characters may be taken by a repetition that has
    taken [n] and may take [hi] at most. *)
Definition fits (hi : option nat) (n len : nat) : Prop :=
  match hi with
  | None => True
  | Some h => len = 0 \/ n + len <= h
  end.

Definition newline : string := String "010" EmptyString.

(** The end of the text or of a line. *)
Definition line_end (post : string) : Prop :=
  post = "" \/ exists post', post = newline ++ post'.

(** The text [rest] begins with a line comment [//# sourceMappingURL=v]
    whose value [v] runs to the end of its line. *)
Definition line_comment_at (rest v : string) : Prop :=
  exists post,
    rest = "//# sourceMappingURL=" ++ v ++ post /\
    v <> "" /\ forallb_str Re.dot v = true /\ line_end post.

(** The text [rest] begins with a block comment
    [/*# sourceMappingURL=v], white space, [*/]; [v] stays on one line. *)
Definition block_comment_at (rest v : string) : Prop :=
  exists ws post,
    rest = "/*# sourceMappingURL=" ++ v ++ ws ++ "*/" ++ post /\
    v <> "" /\ forallb_str Re.dot v = true /\ forallb_str Re.space ws = true.

(** The value a mapping comment at the start of [rest] yields: the one of
    the line form, the longest one of the block form. *)
Definition comment_value_at (rest v : string) : Prop :=
  line_comment_at rest v \/
  (block_comment_at rest v /\
   forall v2, block_comment_at rest v2 -> String.length v2 <= String.length v).

(** No mapping comment begins within the first [n] characters of [js]. *)
Definition no_comment_before (js : string) (n : nat) : Prop :=
  forall pre rest v,
    js = pre ++ rest -> String.length pre < n ->
    ~ line_comment_at rest v /\ ~ block_comment_at rest v.

(** [s] begins with what [scheme_re] matches. *)
Definition has_scheme_prefix (s : string) : bool :=
  match Re.match_here false scheme_re None s with
  | Some _ => true
  | None => false
  end.






(** What [try_fetch_source_by_url] makes of the outcome of its request. *)
Definition fetch_outcome (res : string + Response) : option string :=
  match res with
  | inr r =>
      if (status_code r =? 200)%nat && Py.truthy (Py.strip_ws (text r))
      then Some (text r) else None
  | inl _ => None
  end.

(** The state after a step that did [evs] and counted each file it wrote. *)
Definition grow (st : State) (evs : list event) : State :=
  {| events := (events st ++ evs)%list;
     processed_maps := processed_maps st;
     saved_files := List.length (ev_writes evs) + saved_files st |}.

(** Running [m] only adds events to those there are. *)
Definition extends {A : Type} (m : M A) : Prop :=
  forall st, exists evs, events (snd (m st)) = (events st ++ evs)%list.

(** The events of [save_file path content] after the events [evs]. *)
Definition save_events (w : World) (out_dir path content : string) (evs : list event)
  : list event :=
  let full := PosixPath.join out_dir path in
  let d := PosixPath.dirname full in
  ((if Py.truthy d && negb (path_exists w evs d) then [EvMakedirs d] else [])
     ++ [EvWrite full (Py.encode_utf8 content)])%list.

(** One round of a per-source loop: the content is the embedded one, and
    then nothing is requested, or what one request for [src] resolved
    against [base] gives; with content the file [path] is written and
    [log_ok] printed, without it [log_fail] is printed. *)
Definition source_round (w : World) (path base : string) (log_ok log_fail : list string)
    (contents : list (option string)) (i : nat) (src : string) (evs : list event) : Prop :=
  exists chosen : option string,
    match embedded contents i with
    | Some c => chosen = Some c /\ ev_requests evs = []
    | None =>
        ev_requests evs = [urljoin w base src] /\
        exists n, chosen = fetch_outcome (session_get w n (urljoin w base src))
    end /\
    ev_writes evs = match chosen with
                    | Some c => [(path, Py.encode_utf8 c)]
                    | None => []
                    end /\
    ev_stdout evs = match chosen with Some _ => log_ok | None => log_fail end.

(** The base URL the remote branch resolves a source against (line 191). *)
Definition map_url_guess (w : World) (js_final_url sm : string) : string :=
  if negb (Py.startswith sm "data:") then urljoin w js_final_url sm else js_final_url.

Definition remote_round (w : World) (out_dir js_final_url sm src_root : string)
    (contents : list (option string)) (i : nat) (src : string) (evs : list event) : Prop :=
  source_round w (PosixPath.join out_dir (sanitize src src_root))
    (map_url_guess w js_final_url sm)
    [" - Saved: " ++ sanitize src src_root]
    [" - Could not obtain content for source: " ++ src]
    contents i src evs.

Definition inline_round (w : World) (out_dir final_page_url src_root : string)
    (contents : list (option string)) (i : nat) (src : string) (evs : list event) : Prop :=
  source_round w (PosixPath.join out_dir (inline_filename src src_root))
    final_page_url [] [] contents i src evs.

(** The events of a loop whose [i]-th round does events that satisfy
    [Q i x], [x] being the [i]-th element. *)
Inductive rounds {A : Type} (Q : nat -> A -> list event -> Prop)
  : nat -> list A -> list event -> Prop :=
| rounds_nil (i : nat) : rounds Q i [] []
| rounds_cons (i : nat) (x : A) (l : list A) (e1 e2 : list event) :
    Q i x e1 -> rounds Q (S i) l e2 -> rounds Q i (x :: l) (e1 ++ e2)%list.

(** The URLs the per-source loops request: one for each source without
    embedded content, resolved against [base]. *)
Fixpoint fetch_targets (join_url : string -> string -> string) (base : string)
    (contents : list (option string)) (i : nat) (srcs : list string) : list string :=
  match srcs with
  | [] => []
  | src :: srcs' =>
      match embedded contents i with
      | Some _ => fetch_targets join_url base contents (S i) srcs'
      | None => join_url base src :: fetch_targets join_url base contents (S i) srcs'
      end
  end.

(** ** Worlds to run the script in *)

Fixpoint assoc {A : Type} (key : string) (table : list (string * A)) : option A :=
  match table with
  | [] => None
  | (k, v) :: rest => if k =? key then Some v else assoc key rest
  end.

(** A stand-in for [urljoin]: absolute references as they are, an empty
    one gives the base, others replace the last path segment of the base. *)
Definition simple_urljoin (base ref : string) : string :=
  if Py.contains "://" ref then ref
  else if negb (Py.truthy ref) then base
  else PosixPath.head_upto_last_slash base ++ ref.

(** A world given by tables: the responses by URL (every other request
    raises), the JSON texts that parse (every other one raises), the
    [<script>] tags by page text.  Nothing exists on disk but what the run
    made itself. *)
Definition table_world (pages : list (string * Response))
    (jsons : list (string * json)) (tags : list (string * list ScriptTag)) : World :=
  {| session_get := fun _ target =>
       match assoc target pages with
       | Some r => inr r
       | None => inl "Connection refused"
       end;
     json_loads := fun s =>
       match assoc s jsons with
       | Some j => inr j
       | None => inl "Expecting value: line 1 column 1 (char 0)"
       end;
     b64decode := fun _ => inl "Incorrect padding";
     urljoin := simple_urljoin;
     find_all_script := fun html =>
       match assoc html tags with Some l => l | None => [] end;
     path_exists := fun evs p =>
       existsb (fun e => match e with
                         | EvMakedirs d => d =? p
                         | EvWrite f _ => f =? p
                         | _ => false
                         end) evs |}.

Definition ok_response (target body : string) : Response :=
  {| status_code := 200; text := body; url := target; reason := "OK" |}.

Definition response (code : nat) (target body : string) : Response :=
  {| status_code := code; text := body; url := target; reason := "" |}.

(** *** Concrete runs *)

(** The double quote, and JSON texts written with it. *)
Definition dq : string := String "034" EmptyString.
Definition jkey (k : string) : string := dq ++ k ++ dq ++ ":".
Definition jstr (v : string) : string := dq ++ v ++ dq.

Definition argv0 : list string :=
  ["grab_sources_from_site.py"; "http://site/index.html"; "out"].

Definition script_tag (src : string) : ScriptTag :=
  {| tag_src := Some src; tag_string := None |}.

Definition inline_tag (body : string) : ScriptTag :=
  {| tag_src := None; tag_string := Some body |}.

Definition source_map (root : string) (srcs : list string) (contents : list (option string))
  : json :=
  JMap {| sourceRoot := root; sources := srcs; sourcesContent := contents |}.

(** No site answers. *)
Definition offline_world : World := table_world [] [] [].






(** A page with an inline script whose [data:] reference does not hold
    JSON, followed by a remote script. *)
Definition bad_data_world : World :=
  table_world
    [("http://site/index.html", ok_response "http://site/index.html" "<html>");
     ("http://site/js/app.js", ok_response "http://site/js/app.js" "var a=1;")]
    []
    [("<html>",
      [inline_tag "//# sourceMappingURL=data:application/json,{oops";
       script_tag "js/app.js"])].


(** A page with an inline script and a remote script that carry the same
    map, one source without content that cannot be fetched. *)
Definition no_content_text : string :=
  "{" ++ jkey "sources" ++ "[" ++ jstr "a.js" ++ "]}".

Definition silent_world : World :=
  table_world
    [("http://site/index.html", ok_response "http://site/index.html" "<html>");
     ("http://site/js/app.js",
      ok_response "http://site/js/app.js"
        ("//# sourceMappingURL=data:application/json," ++ no_content_text))]
    [(no_content_text, source_map "" ["a.js"] [])]
    [("<html>",
      [inline_tag ("//# sourceMappingURL=data:application/json," ++ no_content_text);
       script_tag "js/app.js"])].



(** *** Notions for whole runs *)

(** The summary the script ends with (line 200). *)
Definition summary_line (out_dir : string) (st : State) : string :=
  "Processed " ++ Py.str_of_nat (processed_maps st) ++ " maps, saved "
    ++ Py.str_of_nat (saved_files st) ++ " files to '" ++ out_dir ++ "'.".





(** The status codes [raise_for_status] raises on. *)
Definition error_status (code : nat) : bool := (400 <=? code)%nat && (code <? 600)%nat.

(** A site whose map [app.js.map] is served as text that is not JSON. *)
Definition broken_map_world : World :=
  table_world
    [("http://site/js/app.js.map", ok_response "http://site/js/app.js.map" "<html>404</html>")]
    [] [].

(** A page whose one script cannot be fetched. *)
Definition lost_script_world : World :=
  table_world
    [("http://site/index.html",
      ok_response "http://site/index.html" "<script src=js/app.js></script>");
     ("http://site/js/app.js", response 404 "http://site/js/app.js" "")]
    []
    [("<script src=js/app.js></script>", [script_tag "js/app.js"])].

(** A site whose page answers 503. *)
Definition down_world : World :=
  table_world
    [("http://site/index.html", response 503 "http://site/index.html" "busy")] [] [].

(** ** The script with calls that fail

    The model above takes [os.makedirs], [open] and [urljoin] to succeed.
    Here they can raise, as the environment decides; the requests, the
    parsing and the rest of the script are as above. *)

Record Faults : Type := {
  (** what [os.makedirs(path, exist_ok=True)] raises after the given
      events, if it raises *)
  makedirs_error : list event -> string -> option string;
  (** what [open(path, "wb")] raises after the given events, if it raises *)
  open_error : list event -> string -> option string;
  (** the message of the [ValueError] of [urljoin(base, ref)], if it raises *)
  urljoin_error : string -> string -> option string
}.

(** An environment in which nothing fails that can succeed. *)
Definition no_faults : Faults :=
  {| makedirs_error := fun _ _ => None;
     open_error := fun _ _ => None;
     urljoin_error := fun _ _ => None |}.

(** An environment in which [urljoin] rejects the listed references. *)
Definition rejecting (refs : list string) : Faults :=
  {| makedirs_error := fun _ _ => None;
     open_error := fun _ _ => None;
     urljoin_error := fun _ ref =>
       if existsb (String.eqb ref) refs then Some "Invalid IPv6 URL" else None |}.

Definition errno2 (path : string) : string :=
  "[Errno 2] No such file or directory: '" ++ path ++ "'".

Definition errno21 (path : string) : string :=
  "[Errno 21] Is a directory: '" ++ path ++ "'".

(** The outcome of [os.makedirs(path, exist_ok=True)]: the empty path
    cannot be made, whatever the environment. *)
Definition makedirs_outcome (f : Faults) (evs : list event) (path : string)
  : option string :=
  match makedirs_error f evs path with
  | Some msg => Some msg
  | None => if path =? "" then Some (errno2 path) else None
  end.

(** The outcome of [open(path, "wb")]: the empty path and a path that
    ends with [/] cannot be opened for writing, whatever the environment. *)
Definition open_outcome (f : Faults) (evs : list event) (path : string)
  : option string :=
  match open_error f evs path with
  | Some msg => Some msg
  | None =>
      if path =? "" then Some (errno2 path)
      else if Py.endswith_char path "/" then Some (errno21 path)
      else None
  end.

Section FaultyScript.
Context (f : Faults) (w : World).
Variable out_dir : string.    (* sys.argv[2] *)

(** [os.makedirs(path, exist_ok=True)] *)
Definition os_makedirs_f (path : string) : M unit :=
  fun st =>
    match makedirs_outcome f (events st) path with
    | Some msg => (Raise (OSError msg), st)
    | None => os_makedirs path st
    end.

(** [with open(full, "wb") as f: f.write(data)] *)
Definition write_file_f (full : string) (data : list ascii) : M unit :=
  fun st =>
    match open_outcome f (events st) full with
    | Some msg => (Raise (OSError msg), st)
    | None => emit (EvWrite full data) st
    end.

(** [urljoin(base, ref)] *)
Definition urljoin_f (base ref : string) : M string :=
  match urljoin_error f base ref with
  | Some msg => raise (ValueError msg)
  | None => ret (urljoin w base ref)
  end.

(** lines 41-49 *)
Definition save_file_f (path content : string) : M unit :=
  let full := PosixPath.join out_dir path in
  let d := PosixPath.dirname full in
  (fun st =>
     if Py.truthy d && negb (path_exists w (events st) d)
     then os_makedirs_f d st
     else ret tt st) ;;
  write_file_f full (Py.encode_utf8 content).

(** the loop of lines 54-60 *)
Fixpoint find_scripts_f (tags : list ScriptTag) (base_url : string) : M (list entry) :=
  match tags with
  | [] => ret []
  | s :: tags' =>
      e <- match tag_src s with
           | Some (String c src') =>
               u <- urljoin_f base_url (String c src') ;;
               ret (Remote u)
           | _ => ret (Inline (match tag_string s with
                               | Some (String c t) => String c t
                               | _ => ""
                               end))
           end ;;
      scripts <- find_scripts_f tags' base_url ;;
      ret (e :: scripts)
  end.

(** lines 51-61 *)
Definition find_scripts_from_html_f (html base_url : string) : M (list entry) :=
  find_scripts_f (find_all_script w html) base_url.

(** lines 73-96 *)
Definition handle_map_url_f (map_url_or_data js_base_url : string) : M (option json) :=
  if Py.startswith map_url_or_data "data:" then
    match Py.split_once "," map_url_or_data with
    | None => ret None
    | Some (header, b64) =>
        if Py.contains "base64" header then
          raw <- decode_b64 w b64 ;;
          j <- loads w raw ;;
          ret (Some j)
        else
          j <- loads w b64 ;;
          ret (Some j)
    end
  else
    full_map_url <- urljoin_f js_base_url map_url_or_data ;;
    try_except
      (r <- get w full_map_url ;;
       raise_for_status r ;;
       j <- loads w (text r) ;;
       ret (Some j))
      (fun e =>
         print ("Failed to fetch/parse map at " ++ full_map_url ++ ": " ++ exn_str e) ;;
         ret None).

(** lines 98-107 *)
Definition try_fetch_source_by_url_f (source_path map_url : string) : M (option string) :=
  try_except
    (candidate <- urljoin_f map_url source_path ;;
     r <- get w candidate ;;
     if (status_code r =? 200)%nat && Py.truthy (Py.strip_ws (text r))
     then ret (Some (text r))
     else ret None)
    (fun _ => ret None).

(** body of the loop of lines 133-146 *)
Definition inline_source_f (final_page_url src_root : string)
    (contents : list (option string)) (i : nat) (src : string) : M unit :=
  let filename := inline_filename src src_root in
  content <- match embedded contents i with
             | Some c => ret (Some c)
             | None => try_fetch_source_by_url_f src final_page_url
             end ;;
  match content with
  | Some c => save_file_f filename c ;; incr_saved_files
  | None => ret tt
  end.

(** body of the loop of lines 177-198 *)
Definition remote_source_f (js_final_url sm src_root : string)
    (contents : list (option string)) (i : nat) (src : string) : M unit :=
  let cleaned := sanitize src src_root in
  content <- match embedded contents i with
             | Some c => ret (Some c)
             | None =>
                 map_url_guess <- (if negb (Py.startswith sm "data:")
                                   then urljoin_f js_final_url sm
                                   else ret js_final_url) ;;
                 try_fetch_source_by_url_f src map_url_guess
             end ;;
  match content with
  | None => print (" - Could not obtain content for source: " ++ src)
  | Some c =>
      save_file_f cleaned c ;;
      incr_saved_files ;;
      print (" - Saved: " ++ cleaned)
  end.

(** lines 118-147: one inline entry *)
Definition inline_entry_f (final_page_url js_text : string) : M unit :=
  let sm := extract_mapping_reference js_text in
  let js_base := final_page_url in
  print ("Inline script mapping: " ++ fmt_opt sm) ;;
  match sm with
  | Some (String c sm') =>
      let sm := String c sm' in
      sm_json <- handle_map_url_f sm js_base ;;
      match sm_json with
      | Some (JMap d) =>
          incr_processed_maps ;;
          for_enumerate 0 (sources d)
            (inline_source_f final_page_url (sourceRoot d) (sourcesContent d))
      | _ => ret tt
      end
  | _ => ret tt
  end.

(** lines 149-198: one remote entry *)
Definition remote_entry_f (js_url : string) : M unit :=
  fetched <- try_except
               (r <- get w js_url ;;
                raise_for_status r ;;
                ret (Some (text r, url r)))
               (fun e =>
                  print ("Failed to fetch JS " ++ js_url ++ ": " ++ exn_str e) ;;
                  ret None) ;;
  match fetched with
  | None => ret tt
  | Some (js_text, js_final_url) =>
      match extract_mapping_reference js_text with
      | Some (String c sm') =>
          let sm := String c sm' in
          print ("Found map reference for " ++ js_url ++ ": " ++ sm) ;;
          sm_json <- handle_map_url_f sm js_final_url ;;
          match sm_json with
          | Some (JMap d) =>
              incr_processed_maps ;;
              for_enumerate 0 (sources d)
                (remote_source_f js_final_url sm (sourceRoot d) (sourcesContent d))
          | _ => print ("Could not load map for " ++ js_url)
          end
      | _ => print ("No sourceMappingURL found in " ++ js_url)
      end
  end.

(** lines 117-198 *)
Definition process_entry_f (final_page_url : string) (e : entry) : M unit :=
  match e with
  | Inline js_text => inline_entry_f final_page_url js_text
  | Remote js_url => remote_entry_f js_url
  end.

(** lines 112-200, once the script entries are there *)
Definition main_loop_f (final_page_url : string) (script_entries : list entry) : M unit :=
  print ("Found " ++ Py.str_of_nat (List.length script_entries)
           ++ " script entries on " ++ final_page_url) ;;
  for_each script_entries (process_entry_f final_page_url) ;;
  (fun st => print (summary_line out_dir st) st).

(** lines 110-200 *)
Definition main_f (page_url : string) : M unit :=
  page <- get_text w page_url ;;
  let '(html, final_page_url) := page in
  script_entries <- find_scripts_from_html_f html final_page_url ;;
  main_loop_f final_page_url script_entries.

End FaultyScript.

(** The whole module, run on [sys.argv] (lines 24-200). *)
Definition script_f (f : Faults) (w : World) (argv : list string) : M unit :=
  if (List.length argv <? 3)%nat then
    print "Usage: python grab_sources_from_site.py <page-url> <output-dir>" ;;
    raise (SystemExit 1)
  else
    let page_url := Py.rstrip "/" (nth 1 argv "") in
    let out_dir := nth 2 argv "" in
    os_makedirs_f f out_dir ;;
    main_f f w out_dir page_url.

Definition run_f (f : Faults) (w : World) (argv : list string) : Result unit * State :=
  script_f f w argv initial.

(** The URL requested for [src] below [base], when it joins. *)
Definition joined_target (f : Faults) (w : World) (base src : string) : list string :=
  match urljoin_error f base src with
  | Some _ => []
  | None => [urljoin w base src]
  end.

(** One round of a per-source loop that ends without an exception: as
    [source_round], but a source whose URL cannot be joined is not
    requested and has no content. *)
Definition source_round_f (f : Faults) (w : World) (path base : string)
    (log_ok log_fail : list string)
    (contents : list (option string)) (i : nat) (src : string) (evs : list event) : Prop :=
  exists chosen : option string,
    match embedded contents i with
    | Some c => chosen = Some c /\ ev_requests evs = []
    | None =>
        ev_requests evs = joined_target f w base src /\
        (chosen = None \/
         exists n, chosen = fetch_outcome (session_get w n (urljoin w base src)))
    end /\
    ev_writes evs = match chosen with
                    | Some c => [(path, Py.encode_utf8 c)]
                    | None => []
                    end /\
    ev_stdout evs = match chosen with Some _ => log_ok | None => log_fail end.

(** The round of a per-source loop that ends with an exception: nothing
    is printed and nothing written, and at most the source of the round
    has been requested. *)
Definition failed_round_f (f : Faults) (w : World) (base : string)
    (contents : list (option string)) (i : nat) (src : string) (evs : list event) : Prop :=
  ev_stdout evs = [] /\ ev_writes evs = [] /\
  (ev_requests evs = [] \/
   (embedded contents i = None /\ ev_requests evs = joined_target f w base src)).



(** The entry of a [<script>] element (lines 55-60). *)
Definition entry_of_tag (w : World) (base_url : string) (s : ScriptTag) : entry :=
  match tag_src s with
  | Some (String c src') => Remote (urljoin w base_url (String c src'))
  | _ => Inline (match tag_string s with
                 | Some (String c t) => String c t
                 | _ => ""
                 end)
  end.

(** [urljoin] accepts the [src] of every element. *)
Definition srcs_join (f : Faults) (base_url : string) (tags : list ScriptTag) : Prop :=
  forall tag src,
    In tag tags -> tag_src tag = Some src -> src <> "" ->
    urljoin_error f base_url src = None.

(** A page whose script has a [src] that [urljoin] rejects. *)
Definition bad_src_world : World :=
  table_world
    [("http://site/index.html", ok_response "http://site/index.html" "<html>")]
    []
    [("<html>", [script_tag "//[x"])].

Example sanitize_webpack : sanitize "webpack:///src/x.js" "" = "src/x.js".
Proof. reflexivity. Qed.

Example sanitize_root : sanitize "file:///a/b.js" "/lib/" = "lib/a/b.js".
Proof. reflexivity. Qed.

Example extract_line_example :
  extract_mapping_reference ("var a=1;" ++ String "010" "//# sourceMappingURL=foo.js.map" ++ String "010" "")
  = Some "foo.js.map".
Proof. reflexivity. Qed.

Example extract_block_example :
  extract_mapping_reference "x /*# sourceMappingURL=a.map */ y */" = Some "a.map */ y".
Proof. reflexivity. Qed.

Example extract_absent_example : extract_mapping_reference "var a = 1; // nothing" = None.
Proof. reflexivity. Qed.

(** * Properties *)

(** ** Strings *)

#[local] Arguments Ascii.eqb : simpl never.

Lemma append_assoc (a b c : string) : (a ++ b) ++ c = a ++ (b ++ c).
Proof. induction a as [|x a IH]; simpl; [reflexivity | now rewrite IH]. Qed.

Lemma append_nil_r (a : string) : a ++ "" = a.
Proof. induction a as [|x a IH]; simpl; [reflexivity | now rewrite IH]. Qed.

Lemma length_append (a b : string) :
  String.length (a ++ b) = String.length a + String.length b.
Proof. induction a as [|x a IH]; simpl; [reflexivity | now rewrite IH]. Qed.

Lemma append_inv_head (a b c : string) : a ++ b = a ++ c -> b = c.
Proof.
  induction a as [|x a IH]; simpl; intros H; [exact H|].
  injection H as H. now apply IH.
Qed.

(** Two ways of cutting one string at the same place are the same cut. *)
Lemma append_split_eq (a b c d : string) :
  a ++ b = c ++ d -> String.length a = String.length c -> a = c /\ b = d.
Proof.
  revert c. induction a as [|x a IH]; intros [|y c]; simpl; intros H L; try discriminate.
  - now split.
  - injection H as -> H. injection L as L.
    destruct (IH _ H L) as [-> ->]. now split.
Qed.

(** Of two cuts of one string, the shorter head is a head of the longer. *)
Lemma append_split_le (a b c d : string) :
  a ++ b = c ++ d -> String.length a <= String.length c ->
  exists m, c = a ++ m /\ b = m ++ d.
Proof.
  revert c. induction a as [|x a IH]; intros c H L; simpl in *.
  - exists c. now split.
  - destruct c as [|y c]; simpl in *; [lia|].
    injection H as -> H.
    destruct (IH c H ltac:(lia)) as (m & -> & ->).
    exists m. now split.
Qed.

Lemma take_app_length (a b : string) :
  Py.take (String.length (a ++ b) - String.length b) (a ++ b) = a.
Proof.
  rewrite length_append.
  replace (String.length a + String.length b - String.length b) with (String.length a) by lia.
  induction a as [|x a IH]; simpl.
  - destruct b; reflexivity.
  - now rewrite IH.
Qed.

Lemma forallb_str_app (cs : ascii -> bool) (a b : string) :
  forallb_str cs (a ++ b) = forallb_str cs a && forallb_str cs b.
Proof.
  induction a as [|x a IH]; simpl; [reflexivity|].
  rewrite IH. now rewrite andb_assoc.
Qed.

Lemma last_char_app (a b : string) (prev : option ascii) :
  last_char (a ++ b) prev = last_char b (last_char a prev).
Proof. revert prev. induction a as [|x a IH]; simpl; intros; [reflexivity | apply IH]. Qed.

Lemma truthy_true (s : string) : Py.truthy s = true <-> s <> "".
Proof. destruct s; simpl; split; congruence. Qed.


Lemma prefixb_iff (p s : string) :
  Py.prefixb p s = true <-> exists t, s = p ++ t.
Proof.
  revert s. induction p as [|c p IH]; intros s; simpl.
  - split; [intros _; now exists s | reflexivity].
  - destruct s as [|d s].
    + split; [discriminate | intros [t H]; discriminate H].
    + rewrite andb_true_iff, Ascii.eqb_eq, IH. split.
      * intros [-> [t ->]]. now exists t.
      * intros [t H]. injection H as -> ->. split; [reflexivity | now exists t].
Qed.

(** ** [str.strip] and [posixpath.join] *)

Lemma lstrip_by_not_head (cs : ascii -> bool) (s : string) :
  match Py.lstrip_by cs s with
  | EmptyString => True
  | String c _ => cs c = false
  end.
Proof.
  induction s as [|c s IH]; simpl; [exact I|].
  destruct (cs c) eqn:E; [exact IH | simpl; exact E].
Qed.

Lemma lstrip_slash_no_lead (s : string) :
  Py.startswith (Py.lstrip "/" s) "/" = false.
Proof.
  unfold Py.startswith, Py.lstrip.
  pose proof (lstrip_by_not_head (fun c => Py.mem c "/") s) as H.
  destruct (Py.lstrip_by _ s) as [|c r]; simpl; [reflexivity|].
  simpl in H. rewrite orb_false_r in H.
  rewrite Ascii.eqb_sym, H. reflexivity.
Qed.

Lemma startswith_slash_app (a b : string) :
  a <> "" -> Py.startswith a "/" = false -> Py.startswith (a ++ b) "/" = false.
Proof.
  unfold Py.startswith. destruct a as [|c a]; [congruence|].
  simpl. rewrite !andb_true_r. now intros _ H.
Qed.

(** A stripped string does not begin with a stripped character. *)
Lemma strip_slash_no_lead (s : string) :
  Py.startswith (Py.strip "/" s) "/" = false.
Proof. unfold Py.strip, Py.strip_by. apply lstrip_slash_no_lead. Qed.

Lemma rstrip_by_not_last (cs : ascii -> bool) (s : string) (c : ascii) :
  cs c = true -> Py.endswith_char (Py.rstrip_by cs s) c = false.
Proof.
  intros Hc. induction s as [|x s IH]; simpl; [reflexivity|].
  destruct (Py.rstrip_by cs s) as [|y r] eqn:E.
  - destruct (cs x) eqn:Ex; simpl; [reflexivity|].
    destruct (Ascii.eqb_spec x c) as [->|]; [congruence|reflexivity].
  - simpl in *. exact IH.
Qed.

Lemma lstrip_by_keeps_last (cs : ascii -> bool) (s : string) (c : ascii) :
  Py.endswith_char s c = false -> Py.endswith_char (Py.lstrip_by cs s) c = false.
Proof.
  induction s as [|x s IH]; simpl; [reflexivity|].
  intros H. destruct (cs x).
  - apply IH. destruct s; [reflexivity|exact H].
  - exact H.
Qed.

Lemma strip_slash_no_trail (s : string) :
  Py.endswith_char (Py.strip "/" s) "/" = false.
Proof.
  unfold Py.strip, Py.strip_by.
  apply lstrip_by_keeps_last, rstrip_by_not_last. reflexivity.
Qed.

Lemma join_relative (a b : string) :
  Py.startswith b "/" = false ->
  PosixPath.join a b =
    if negb (Py.truthy a) || Py.endswith_char a "/" then a ++ b else a ++ "/" ++ b.
Proof. unfold PosixPath.join. now intros ->. Qed.


(** ** The matcher *)

Lemma lit_match_spec (l : string) (prev : option ascii) (s : string)
    (p' : option ascii) (s' : string) :
  Re.lit_match l prev s = Some (p', s') <-> s = l ++ s' /\ p' = last_char l prev.
Proof.
  revert prev s. induction l as [|c l IH]; intros prev s; simpl.
  - split; [intros H; injection H as -> ->; now split | intros [-> ->]; reflexivity].
  - destruct s as [|d s].
    + split; [discriminate | intros [H _]; discriminate H].
    + destruct (Ascii.eqb_spec c d) as [->|N].
      * rewrite IH. split.
        -- intros [-> ->]. now split.
        -- intros [H ->]. injection H as ->. now split.
      * split; [discriminate | intros [H _]; injection H as H _; congruence].
Qed.

Lemma lit_match_app (l : string) (prev : option ascii) (t : string) :
  Re.lit_match l prev (l ++ t) = Some (last_char l prev, t).
Proof. apply lit_match_spec. now split. Qed.

Section Repetition.
Context {R : Type}.
Variables (cs : ascii -> bool) (lo : nat) (hi : option nat).
Variable k : option ascii -> string -> option R.

Lemma fits_step (n len : nat) :
  fits hi n (S len) -> Re.below n hi = true /\ fits hi (S n) len.
Proof.
  unfold fits, Re.below. destruct hi as [h|]; [|now split].
  intros [H|H]; [discriminate|]. split; [apply Nat.ltb_lt; lia | right; lia].
Qed.

Lemma fits_grow (n len : nat) :
  Re.below n hi = true -> fits hi (S n) len -> fits hi n (S len).
Proof.
  unfold fits, Re.below. destruct hi as [h|]; [|trivial].
  intros B%Nat.ltb_lt [->|H]; right; lia.
Qed.

(** A repetition finds a continuation that succeeds if some way of
    cutting the text lets it succeed. *)
Lemma rep_greedy_complete (w : string) :
  forall (n : nat) (prev : option ascii) (s' : string) (x : R),
    forallb_str cs w = true ->
    lo <= n + String.length w ->
    fits hi n (String.length w) ->
    k (last_char w prev) s' = Some x ->
    exists y, Re.rep_greedy cs lo hi n prev (w ++ s') k = Some y.
Proof.
  induction w as [|c w IH]; intros n prev s' x Hcs Hlo Hfit Hk; simpl in *.
  - assert (E : (lo <=? n)%nat = true) by (apply Nat.leb_le; lia).
    destruct s' as [|d s']; simpl; rewrite E.
    + now exists x.
    + destruct (cs d && Re.below n hi); [|now exists x].
      destruct (Re.rep_greedy cs lo hi (S n) (Some d) s' k) as [y|]; [now exists y|].
      rewrite Hk. now exists x.
  - apply andb_true_iff in Hcs as [Hc Hw].
    apply fits_step in Hfit as [Hb Hfit].
    rewrite Hc, Hb. simpl.
    destruct (IH (S n) (Some c) s' x Hw ltac:(lia) Hfit Hk) as [y ->].
    now exists y.
Qed.

(** What a repetition returns comes from the longest cut on which the
    continuation succeeds. *)
Lemma rep_greedy_sound (s : string) :
  forall (n : nat) (prev : option ascii) (x : R),
    Re.rep_greedy cs lo hi n prev s k = Some x ->
    exists w s',
      s = w ++ s' /\ forallb_str cs w = true /\
      lo <= n + String.length w /\ fits hi n (String.length w) /\
      k (last_char w prev) s' = Some x /\
      (forall w2 s2,
          s = w2 ++ s2 -> forallb_str cs w2 = true ->
          String.length w < String.length w2 -> fits hi n (String.length w2) ->
          k (last_char w2 prev) s2 = None).
Proof.
  assert (stop_here : forall n prev s x,
    (if (lo <=? n)%nat then k prev s else None) = Some x ->
    (forall w2 s2, s = w2 ++ s2 -> forallb_str cs w2 = true ->
                   0 < String.length w2 -> fits hi n (String.length w2) ->
                   k (last_char w2 prev) s2 = None) ->
    exists w s',
      s = w ++ s' /\ forallb_str cs w = true /\
      lo <= n + String.length w /\ fits hi n (String.length w) /\
      k (last_char w prev) s' = Some x /\
      (forall w2 s2,
          s = w2 ++ s2 -> forallb_str cs w2 = true ->
          String.length w < String.length w2 -> fits hi n (String.length w2) ->
          k (last_char w2 prev) s2 = None)).
  { intros n prev s0 x H Hmax.
    destruct (Nat.leb_spec lo n) as [L|L]; [|discriminate].
    exists "", s0. simpl. repeat split; try assumption; try lia.
    unfold fits. destruct hi; [now left|exact I]. }
  induction s as [|c s IH]; intros n prev x H; simpl in H.
  - apply stop_here; [exact H|].
    intros [|c2 w2] s2 E _ L _; simpl in *; [lia|discriminate].
  - destruct (cs c && Re.below n hi) eqn:Hcond.
    + apply andb_true_iff in Hcond as [Hc Hb].
      destruct (Re.rep_greedy cs lo hi (S n) (Some c) s k) as [r|] eqn:Hrec.
      * injection H as <-.
        destruct (IH _ _ _ Hrec) as (w & s' & -> & Hw & Hlo & Hfit & Hk & Hmax).
        exists (String c w), s'. simpl. rewrite Hc, Hw.
        repeat split; try assumption; try lia.
        -- now apply fits_grow.
        -- intros [|c2 w2] s2 E Hcs2 L F2; simpl in *; [lia|].
           injection E as <- E. apply andb_true_iff in Hcs2 as [_ Hcs2].
           apply fits_step in F2 as [_ F2].
           apply (Hmax w2 s2 E Hcs2 ltac:(lia) F2).
      * apply stop_here; [exact H|].
        intros [|c2 w2] s2 E Hcs2 L F2; simpl in *; [lia|].
        injection E as <- ->. apply andb_true_iff in Hcs2 as [_ Hcs2].
        apply fits_step in F2 as [_ F2].
        destruct (k (last_char w2 (Some c)) s2) as [y|] eqn:Hy; [|reflexivity].
        destruct (Nat.leb_spec lo n) as [Ln|Ln]; [|discriminate].
        destruct (rep_greedy_complete w2 (S n) (Some c) s2 y Hcs2 ltac:(lia) F2 Hy)
          as [z Hz].
        congruence.
    + apply stop_here; [exact H|].
      intros [|c2 w2] s2 E Hcs2 L F2; simpl in *; [lia|].
      injection E as <- ->. apply andb_true_iff in Hcs2 as [Hc _].
      apply fits_step in F2 as [Hb _].
      rewrite Hc, Hb in Hcond. discriminate.
Qed.

End Repetition.

(** A run of characters of a class, followed by one outside it, can be
    cut off in one way only. *)
Lemma run_unique (cs : ascii -> bool) (a a' : string) (c c' : ascii) (b b' : string) :
  a ++ String c b = a' ++ String c' b' ->
  forallb_str cs a = true -> forallb_str cs a' = true ->
  cs c = false -> cs c' = false ->
  a = a' /\ c = c' /\ b = b'.
Proof.
  revert a'. induction a as [|x a IH]; intros [|y a']; simpl; intros E Ha Ha' Hc Hc'.
  - injection E as -> ->. now repeat split.
  - injection E as -> _. apply andb_true_iff in Ha' as [Hy _]. congruence.
  - injection E as -> _. apply andb_true_iff in Ha as [Hx _]. congruence.
  - injection E as -> E.
    apply andb_true_iff in Ha as [_ Ha]. apply andb_true_iff in Ha' as [_ Ha'].
    destruct (IH _ E Ha Ha' Hc Hc') as (-> & -> & ->). now repeat split.
Qed.

(** The same when the run ends with the text. *)
Lemma run_unique_end (cs : ascii -> bool) (a a' : string) (c' : ascii) (b' : string) :
  a = a' ++ String c' b' ->
  forallb_str cs a = true -> cs c' = false -> False.
Proof.
  intros -> H Hc. rewrite forallb_str_app in H. simpl in H.
  rewrite Hc in H. simpl in H. rewrite andb_false_r in H. discriminate.
Qed.

Lemma last_char_some (w : string) (c : ascii) : exists d, last_char w (Some c) = Some d.
Proof. revert c. induction w as [|x w IH]; intros c; simpl; [now exists c | apply IH]. Qed.

#[local] Arguments Re.lit_match : simpl never.
#[local] Arguments Re.rep_greedy : simpl never.

(** ** The path clean-up *)

(** After the start of the text, [^] matches nowhere: [re.sub] leaves the
    rest as it is. *)
Lemma sub_scheme_after_start (fuel : nat) :
  forall (c : ascii) (s : string),
    Re.sub_from false fuel scheme_re "" (Some c) s = s.
Proof.
  induction fuel as [|fuel IH]; intros c s; simpl; [reflexivity|].
  destruct s as [|d s]; [reflexivity|]. now rewrite IH.
Qed.

(** What [scheme_re] matches at the start of a text: lower-case letters,
    a colon, and up to three slashes. *)
Lemma scheme_match_sound (s : string) (m : Re.match_obj) :
  Re.match_here false scheme_re None s = Some m ->
  exists letters slashes,
    s = letters ++ ":" ++ slashes ++ Re.m_rest m /\
    letters <> "" /\ forallb_str Re.lower letters = true /\
    forallb_str Re.slash slashes = true /\ String.length slashes <= 3 /\
    exists d, Re.m_prev m = Some d.
Proof.
  unfold Re.match_here, scheme_re. simpl. intros H.
  apply rep_greedy_sound in H as (w & s1 & -> & Hw & Hlo & _ & Hk & _).
  destruct (Re.lit_match ":" (last_char w None) s1) as [[p2 s2]|] eqn:Hl; [|discriminate].
  apply lit_match_spec in Hl as [-> ->].
  apply rep_greedy_sound in Hk as (w3 & s3 & -> & Hw3 & _ & Hfit & Hk & _).
  injection Hk as <-. simpl.
  exists w, w3. repeat split; try assumption.
  - destruct w; simpl in *; [lia|discriminate].
  - unfold fits in Hfit. destruct Hfit as [->|]; simpl in *; lia.
  - apply last_char_some.
Qed.

Lemma scheme_match_complete (letters rest : string) :
  letters <> "" -> forallb_str Re.lower letters = true ->
  exists m, Re.match_here false scheme_re None (letters ++ ":" ++ rest) = Some m.
Proof.
  intros Hne Hl. unfold Re.match_here, scheme_re. simpl.
  set (k3 := fun (p : option ascii) (t : string) =>
               Some {| Re.m_prev := p; Re.m_rest := t; Re.m_caps := [] |}).
  destruct (rep_greedy_complete Re.slash 0 (Some 3) k3 "" 0
              (last_char ":" (last_char letters None)) rest
              {| Re.m_prev := last_char ":" (last_char letters None);
                 Re.m_rest := rest; Re.m_caps := [] |})
    as [y Hy]; simpl; try reflexivity; try lia; try (now left).
  apply (rep_greedy_complete _ _ _ _ letters 0 None (String ":" rest) y); try assumption.
  - destruct letters; simpl; [congruence|lia].
  - exact I.
Qed.

Lemma lstrip_slashes (slashes rest : string) :
  forallb_str Re.slash slashes = true ->
  Py.lstrip "/" (slashes ++ rest) = Py.lstrip "/" rest.
Proof.
  unfold Py.lstrip. induction slashes as [|c w IH]; simpl; [reflexivity|].
  intros H. apply andb_true_iff in H as [Hc Hw].
  unfold Re.slash in Hc. rewrite Hc. simpl. now apply IH.
Qed.

(** On an entry that begins with lower-case letters and a colon, the
    clean-up drops them and every slash that follows. *)
Lemma sanitize_scheme (letters rest : string) :
  letters <> "" -> forallb_str Re.lower letters = true ->
  sanitize (letters ++ ":" ++ rest) "" = Py.lstrip "/" rest.
Proof.
  intros Hne Hl. unfold sanitize. simpl Py.truthy. cbv iota.
  unfold Re.sub. cbn [Re.sub_from].
  destruct (scheme_match_complete letters rest Hne Hl) as [m Hm].
  rewrite Hm.
  destruct (scheme_match_sound _ _ Hm) as (l2 & sl & E & Hne2 & Hl2 & Hsl & _ & d & Hd).
  assert (L : (String.length (Re.m_rest m) <? String.length (letters ++ ":" ++ rest))%nat = true).
  { apply Nat.ltb_lt. rewrite E. rewrite !length_append. simpl. lia. }
  rewrite L, Hd. simpl append at 1. rewrite sub_scheme_after_start.
  assert (Hcolon : Re.lower ":" = false) by reflexivity.
  change (letters ++ ":" ++ rest) with (letters ++ String ":" rest) in E.
  change (l2 ++ ":" ++ sl ++ Re.m_rest m) with (l2 ++ String ":" (sl ++ Re.m_rest m)) in E.
  destruct (run_unique Re.lower _ _ _ _ _ _ E Hl Hl2 Hcolon Hcolon) as (_ & _ & ->).
  symmetry. now apply lstrip_slashes.
Qed.

(** The clean-up never yields a path that begins with a slash. *)
Lemma sanitize_no_leading_slash (src src_root : string) :
  Py.startswith (sanitize src src_root) "/" = false.
Proof.
  unfold sanitize.
  set (cleaned := Py.lstrip "/" (Re.sub false scheme_re "" src)).
  assert (Hc : Py.startswith cleaned "/" = false) by apply lstrip_slash_no_lead.
  destruct (Py.truthy src_root); [|exact Hc].
  rewrite (join_relative _ _ Hc).
  pose proof (strip_slash_no_lead src_root) as Hr.
  pose proof (strip_slash_no_trail src_root) as Ht.
  destruct (Py.strip "/" src_root) as [|c r] eqn:E.
  - simpl. exact Hc.
  - simpl Py.truthy. simpl negb. rewrite Ht. simpl orb. cbv iota.
    apply startswith_slash_app; [discriminate | exact Hr].
Qed.

(** With a source root, the cleaned path goes below the root stripped of
    its slashes. *)
Lemma sanitize_with_root (src src_root : string) :
  src_root <> "" ->
  sanitize src src_root =
    match Py.strip "/" src_root with
    | EmptyString => sanitize src ""
    | root => root ++ "/" ++ sanitize src ""
    end.
Proof.
  intros Hne. apply truthy_true in Hne.
  unfold sanitize at 1. rewrite Hne.
  change (Py.lstrip "/" (Re.sub false scheme_re "" src)) with (sanitize src "").
  rewrite (join_relative _ _ (sanitize_no_leading_slash src "")).
  pose proof (strip_slash_no_trail src_root) as Ht.
  destruct (Py.strip "/" src_root) as [|c r] eqn:E; [reflexivity|].
  simpl Py.truthy. simpl negb. rewrite Ht. reflexivity.
Qed.

(** ** The mapping comment *)

Lemma at_eol_line_end (s : string) : Re.at_eol true s = true <-> line_end s.
Proof.
  unfold line_end, newline. destruct s as [|c s]; simpl.
  - split; [now left | reflexivity].
  - rewrite andb_true_r, Ascii.eqb_eq. split.
    + intros ->. right. now exists s.
    + intros [H|[post' H]]; [discriminate | now injection H].
Qed.

(** The value of a line comment is fixed by where its line ends. *)
Lemma line_value_unique (v v' p p' : string) :
  v ++ p = v' ++ p' ->
  forallb_str Re.dot v = true -> forallb_str Re.dot v' = true ->
  line_end p -> line_end p' -> v = v'.
Proof.
  assert (Hnl : Re.dot "010" = false) by reflexivity.
  unfold line_end, newline.
  intros E Hv Hv' [->|[q ->]] [->|[q' ->]].
  - now rewrite !append_nil_r in E.
  - rewrite append_nil_r in E. simpl in E.
    exfalso. exact (run_unique_end Re.dot _ _ _ _ E Hv Hnl).
  - rewrite append_nil_r in E. simpl in E. symmetry in E.
    exfalso. exact (run_unique_end Re.dot _ _ _ _ E Hv' Hnl).
  - simpl in E. now destruct (run_unique Re.dot _ _ _ _ _ _ E Hv Hv' Hnl Hnl).
Qed.

Lemma line_match_sound (prev : option ascii) (s : string) (m : Re.match_obj) :
  Re.match_here true sm_line_re prev s = Some m ->
  exists v, line_comment_at s v /\
            Re.group m "url" = Some v /\
            String.length (Re.m_rest m) < String.length s.
Proof.
  unfold Re.match_here, sm_line_re. simpl. intros H.
  destruct (Re.lit_match "//# sourceMappingURL=" prev s) as [[p1 s1]|] eqn:Hl; [|discriminate].
  apply lit_match_spec in Hl as [-> ->].
  apply rep_greedy_sound in H as (w & s' & -> & Hw & Hlo & _ & Hk & _).
  destruct (Re.at_eol true s') eqn:Heol; [|discriminate].
  injection Hk as <-. apply at_eol_line_end in Heol.
  exists w. repeat split.
  - exists s'. repeat split; try assumption.
    destruct w; simpl in *; [lia|discriminate].
  - unfold Re.group. simpl. now rewrite take_app_length.
  - simpl Re.m_rest. rewrite !length_append. simpl. lia.
Qed.

Lemma line_match_complete (prev : option ascii) (s v : string) :
  line_comment_at s v -> exists m, Re.match_here true sm_line_re prev s = Some m.
Proof.
  intros (post & -> & Hne & Hv & Hend).
  unfold Re.match_here, sm_line_re. cbn [Re.exec]. rewrite lit_match_app.
  apply at_eol_line_end in Hend.
  eapply rep_greedy_complete with (x := _); try eassumption.
  - destruct v; simpl; [congruence|lia].
  - exact I.
  - cbv beta. rewrite Hend. reflexivity.
Qed.

Lemma block_match_sound (prev : option ascii) (s : string) (m : Re.match_obj) :
  Re.match_here true sm_block_re prev s = Some m ->
  exists v, block_comment_at s v /\
            (forall v2, block_comment_at s v2 -> String.length v2 <= String.length v) /\
            Re.group m "url" = None /\ Re.group m "url2" = Some v /\
            String.length (Re.m_rest m) < String.length s.
Proof.
  unfold Re.match_here, sm_block_re. simpl. intros H.
  destruct (Re.lit_match "/*# sourceMappingURL=" prev s) as [[p1 s1]|] eqn:Hl; [|discriminate].
  apply lit_match_spec in Hl as [-> ->].
  apply rep_greedy_sound in H as (w & s' & -> & Hw & Hlo & _ & Hk & Hmax).
  pose proof Hk as Hk0.
  apply rep_greedy_sound in Hk as (ws & s2 & -> & Hws & _ & _ & Hk & _).
  destruct (Re.lit_match "*/" (last_char ws (last_char w _)) s2) as [[p3 s3]|] eqn:Hl2;
    [|discriminate].
  apply lit_match_spec in Hl2 as [-> ->]. injection Hk as <-.
  assert (Hne : w <> "") by (destruct w; simpl in *; [lia|discriminate]).
  exists w. repeat split.
  - exists ws, s3. repeat split; assumption.
  - intros v2 (ws2 & post2 & E & Hne2 & Hv2 & Hws2).
    destruct (Nat.le_gt_cases (String.length v2) (String.length w)) as [L|L]; [exact L|].
    exfalso. apply append_inv_head in E.
    specialize (Hmax v2 (ws2 ++ "*/" ++ post2) E Hv2 L I).
    cbv beta in Hmax.
    destruct (rep_greedy_complete Re.space 0 None
                (fun p t => match Re.lit_match "*/" p t with
                            | Some (p', t') =>
                                Some {| Re.m_prev := p'; Re.m_rest := t';
                                        Re.m_caps := [("url2",
                                          Py.take (String.length (w ++ ws ++ "*/" ++ s3)
                                                   - String.length (ws2 ++ "*/" ++ post2))
                                                  (w ++ ws ++ "*/" ++ s3))] |}
                            | None => None
                            end)
                ws2 0 (last_char v2 (last_char "/*# sourceMappingURL=" prev))
                ("*/" ++ post2)
                {| Re.m_prev := last_char "*/" (last_char ws2 (last_char v2
                                  (last_char "/*# sourceMappingURL=" prev)));
                   Re.m_rest := post2;
                   Re.m_caps := [("url2",
                       Py.take (String.length (w ++ ws ++ "*/" ++ s3)
                                - String.length (ws2 ++ "*/" ++ post2))
                               (w ++ ws ++ "*/" ++ s3))] |}
                Hws2 ltac:(lia) I) as [y Hy].
    + now rewrite lit_match_app.
    + congruence.
  - unfold Re.group. simpl. now rewrite take_app_length.
  - simpl Re.m_rest. rewrite !length_append. simpl. lia.
Qed.

Lemma block_match_complete (prev : option ascii) (s v : string) :
  block_comment_at s v -> exists m, Re.match_here true sm_block_re prev s = Some m.
Proof.
  intros (ws & post & -> & Hne & Hv & Hws).
  unfold Re.match_here, sm_block_re. cbn [Re.exec]. rewrite lit_match_app.
  set (p1 := last_char "/*# sourceMappingURL=" prev).
  set (s1 := v ++ ws ++ "*/" ++ post).
  set (k2 := fun (t0 : string) (p : option ascii) (t : string) =>
               match Re.lit_match "*/" p t with
               | Some (p', t') =>
                   Some {| Re.m_prev := p'; Re.m_rest := t';
                           Re.m_caps := [("url2",
                             Py.take (String.length s1 - String.length t0) s1)] |}
               | None => None
               end).
  destruct (rep_greedy_complete Re.space 0 None (k2 (ws ++ "*/" ++ post)) ws 0
              (last_char v p1) ("*/" ++ post)
              {| Re.m_prev := last_char "*/" (last_char ws (last_char v p1));
                 Re.m_rest := post;
                 Re.m_caps := [("url2",
                   Py.take (String.length s1 - String.length (ws ++ "*/" ++ post)) s1)] |}
              Hws ltac:(lia) I) as [y Hy].
  { unfold k2. now rewrite lit_match_app. }
  eapply rep_greedy_complete with (x := y); try eassumption.
  - destruct v; simpl; [congruence|lia].
  - exact I.
Qed.

Lemma sm_match_here (prev : option ascii) (s : string) :
  Re.match_here true sm_re prev s =
    match Re.match_here true sm_line_re prev s with
    | Some m => Some m
    | None => Re.match_here true sm_block_re prev s
    end.
Proof. reflexivity. Qed.

Lemma sm_match_sound (prev : option ascii) (s : string) (m : Re.match_obj) :
  Re.match_here true sm_re prev s = Some m ->
  exists v, comment_value_at s v /\
            py_or (Re.group m "url") (Re.group m "url2") = Some v.
Proof.
  rewrite sm_match_here.
  destruct (Re.match_here true sm_line_re prev s) as [m1|] eqn:H1.
  - intros H. injection H as <-.
    destruct (line_match_sound _ _ _ H1) as (v & Hv & Hg & _).
    exists v. split; [now left|]. rewrite Hg. unfold py_or.
    destruct Hv as (_ & _ & Hne & _). apply truthy_true in Hne. now rewrite Hne.
  - intros H2.
    destruct (block_match_sound _ _ _ H2) as (v & Hv & Hmax & Hg1 & Hg2 & _).
    exists v. split; [now right|]. now rewrite Hg1, Hg2.
Qed.

Lemma sm_match_complete (prev : option ascii) (s v : string) :
  line_comment_at s v \/ block_comment_at s v ->
  exists m, Re.match_here true sm_re prev s = Some m.
Proof.
  rewrite sm_match_here. intros [H|H].
  - destruct (line_match_complete prev _ _ H) as [m ->]. now exists m.
  - destruct (Re.match_here true sm_line_re prev s) as [m1|]; [now exists m1|].
    exact (block_match_complete prev _ _ H).
Qed.

(** [search] returns the match at the first position that has one. *)
Lemma search_from_sound (multiline : bool) (r : Re.regex) (s : string) :
  forall (prev : option ascii) (pos p : nat) (m : Re.match_obj),
    Re.search_from multiline r prev s pos = Some (p, m) ->
    exists pre rest,
      s = pre ++ rest /\ p = pos + String.length pre /\
      Re.match_here multiline r (last_char pre prev) rest = Some m /\
      (forall pre2 rest2,
          s = pre2 ++ rest2 -> String.length pre2 < String.length pre ->
          Re.match_here multiline r (last_char pre2 prev) rest2 = None).
Proof.
  induction s as [|c s IH]; intros prev pos p m H; simpl in H.
  - destruct (Re.match_here multiline r prev "") as [m0|] eqn:H0; [|discriminate].
    injection H as <- <-. exists "", "". simpl. repeat split; try assumption; try lia.
  - destruct (Re.match_here multiline r prev (String c s)) as [m0|] eqn:H0.
    + injection H as <- <-. exists "", (String c s). simpl.
      repeat split; try assumption; try lia.
    + destruct (IH _ _ _ _ H) as (pre & rest & -> & -> & Hm & Hfirst).
      exists (String c pre), rest. simpl. repeat split; try assumption; try lia.
      intros [|c2 pre2] rest2 E L; simpl in *.
      * now subst rest2.
      * injection E as <- E. apply (Hfirst _ _ E). lia.
Qed.

Lemma search_from_none (multiline : bool) (r : Re.regex) (s : string) :
  forall (prev : option ascii) (pos : nat),
    Re.search_from multiline r prev s pos = None ->
    forall pre rest,
      s = pre ++ rest -> Re.match_here multiline r (last_char pre prev) rest = None.
Proof.
  induction s as [|c s IH]; intros prev pos H pre rest E; simpl in H.
  - destruct pre; [|discriminate]. simpl in *. subst rest.
    now destruct (Re.match_here multiline r prev "").
  - destruct (Re.match_here multiline r prev (String c s)) as [m0|] eqn:H0; [discriminate|].
    destruct pre as [|c2 pre]; simpl in *.
    + now subst rest.
    + injection E as <- E. exact (IH _ _ H _ _ E).
Qed.

(** A match yields the trimmed value of the first mapping comment. *)
Lemma extract_some (js r : string) :
  extract_mapping_reference js = Some r ->
  exists pre rest v,
    js = pre ++ rest /\ comment_value_at rest v /\ r = Py.strip_ws v /\
    no_comment_before js (String.length pre).
Proof.
  unfold extract_mapping_reference, Re.search.
  destruct (Re.search_from true sm_re None js 0) as [[p m]|] eqn:Hs; [|discriminate].
  destruct (search_from_sound _ _ _ _ _ _ _ Hs) as (pre & rest & -> & _ & Hm & Hfirst).
  destruct (sm_match_sound _ _ _ Hm) as (v & Hv & Hor). rewrite Hor.
  intros H. injection H as <-.
  exists pre, rest, v. repeat split; try assumption.
  - intros Hl. specialize (Hfirst _ _ H H0).
    destruct (sm_match_complete (last_char pre0 None) rest0 v0 (or_introl Hl)) as [m' Hm'].
    congruence.
  - intros Hb. specialize (Hfirst _ _ H H0).
    destruct (sm_match_complete (last_char pre0 None) rest0 v0 (or_intror Hb)) as [m' Hm'].
    congruence.
Qed.

(** No match means that no mapping comment begins anywhere. *)
Lemma extract_none (js : string) :
  extract_mapping_reference js = None ->
  forall pre rest v,
    js = pre ++ rest -> ~ line_comment_at rest v /\ ~ block_comment_at rest v.
Proof.
  unfold extract_mapping_reference, Re.search.
  destruct (Re.search_from true sm_re None js 0) as [[p m]|] eqn:Hs.
  - destruct (search_from_sound _ _ _ _ _ _ _ Hs) as (pre & rest & -> & _ & Hm & _).
    destruct (sm_match_sound _ _ _ Hm) as (v & _ & ->). discriminate.
  - intros _ pre rest v E.
    pose proof (search_from_none _ _ _ _ _ Hs _ _ E) as Hn.
    split; intros H.
    + destruct (sm_match_complete (last_char pre None) rest v (or_introl H)) as [m' Hm'].
      congruence.
    + destruct (sm_match_complete (last_char pre None) rest v (or_intror H)) as [m' Hm'].
      congruence.
Qed.

Lemma rstrip_by_all (cs : ascii -> bool) (t : string) :
  forallb_str cs t = true -> Py.rstrip_by cs t = "".
Proof.
  induction t as [|c t IH]; simpl; [reflexivity|].
  intros H. apply andb_true_iff in H as [Hc Ht]. now rewrite (IH Ht), Hc.
Qed.

Lemma rstrip_by_app_all (cs : ascii -> bool) (a t : string) :
  forallb_str cs t = true -> Py.rstrip_by cs (a ++ t) = Py.rstrip_by cs a.
Proof.
  intros Ht. induction a as [|c a IH]; simpl; [now apply rstrip_by_all|].
  now rewrite IH.
Qed.

(** A body whose first mapping comment is the line
    [//# sourceMappingURL=foo.js.map], followed at most by white space up
    to the end of its line. *)
Lemma extract_foo (pre trail post : string) :
  no_comment_before (pre ++ "//# sourceMappingURL=foo.js.map" ++ trail ++ post)
                    (String.length pre) ->
  forallb_str Re.space trail = true -> forallb_str Re.dot trail = true ->
  line_end post ->
  extract_mapping_reference (pre ++ "//# sourceMappingURL=foo.js.map" ++ trail ++ post)
  = Some "foo.js.map".
Proof.
  intros Hfirst Hsp Hdot Hend.
  set (js := pre ++ "//# sourceMappingURL=foo.js.map" ++ trail ++ post) in *.
  assert (Hhere : line_comment_at ("//# sourceMappingURL=foo.js.map" ++ trail ++ post)
                                  ("foo.js.map" ++ trail)).
  { exists post. repeat split; try assumption; try discriminate. }
  destruct (extract_mapping_reference js) as [r|] eqn:He.
  - destruct (extract_some _ _ He) as (pre0 & rest0 & v0 & E & Hv & -> & Hnone).
    f_equal.
    assert (L : String.length pre0 = String.length pre).
    { destruct (Nat.lt_trichotomy (String.length pre0) (String.length pre)) as [L|[L|L]].
      - exfalso. destruct (Hfirst pre0 rest0 v0 E L) as [N1 N2].
        destruct Hv as [Hv|[Hv _]]; [exact (N1 Hv) | exact (N2 Hv)].
      - exact L.
      - exfalso. destruct (Hnone pre _ ("foo.js.map" ++ trail) eq_refl L) as [N1 _].
        exact (N1 Hhere). }
    unfold js in E. symmetry in E.
    destruct (append_split_eq _ _ _ _ E L) as [-> ->].
    destruct Hv as [(post0 & E0 & _ & Hv0 & Hend0)|[(ws & post0 & E0 & _) _]].
    + simpl in E0. injection E0 as E0.
      change (String "f" (String "o" (String "o" (String "." (String "j" (String "s"
               (String "." (String "m" (String "a" (String "p" (trail ++ post)))))))))))
        with (("foo.js.map" ++ trail) ++ post) in E0.
      assert (Hv1 : forallb_str Re.dot ("foo.js.map" ++ trail) = true)
        by (rewrite forallb_str_app, Hdot; reflexivity).
      rewrite <- (line_value_unique _ _ _ _ E0 Hv1 Hv0 Hend Hend0).
      unfold Py.strip_ws, Py.strip_by. now rewrite rstrip_by_app_all.
    + simpl in E0. discriminate E0.
  - exfalso. destruct (extract_none _ He pre _ ("foo.js.map" ++ trail) eq_refl) as [N1 _].
    exact (N1 Hhere).
Qed.

(** A text without [#] before the comment has no earlier mapping comment. *)
Lemma no_hash_no_comment (pre rest0 : string) :
  Py.contains "#" pre = false ->
  Py.startswith rest0 "//" = true ->
  no_comment_before (pre ++ rest0) (String.length pre).
Proof.
  intros Hh Hs pre2 rest2 v E L.
  assert (Hpos : forall lit : string,
            Py.prefixb "#" (match lit with String _ (String _ t) => t | _ => "" end) = true ->
            forall t, rest2 = lit ++ t -> False).
  { intros lit Hlit t ->.
    destruct (append_split_le _ _ _ _ (eq_sym E) (Nat.lt_le_incl _ _ L)) as (mid & -> & E2).
    rewrite length_append in L. assert (Lm : 0 < String.length mid) by lia.
    clear L E.
    assert (Hmid : Py.contains "#" mid = false).
    { clear - Hh. induction pre2 as [|c p IH]; simpl in *; [exact Hh|].
      apply orb_false_iff in Hh as [_ Hh]. now apply IH. }
    apply prefixb_iff in Hs as [t0 ->].
    destruct lit as [|l1 [|l2 lit]]; try discriminate.
    apply prefixb_iff in Hlit as [t1 ->].
    destruct mid as [|m1 mid]; simpl in *; [lia|].
    injection E2 as -> E2.
    apply orb_false_iff in Hmid as [_ Hmid].
    destruct mid as [|m2 mid]; simpl in *.
    { injection E2 as -> E2. discriminate. }
    injection E2 as -> E2.
    apply orb_false_iff in Hmid as [_ Hmid].
    destruct mid as [|m3 mid]; simpl in *.
    { discriminate. }
    injection E2 as <- _.
    apply orb_false_iff in Hmid as [Hmid _].
    rewrite Ascii.eqb_refl in Hmid. discriminate. }
  split.
  - intros (post & Er & _). exact (Hpos "//# sourceMappingURL=" eq_refl _ Er).
  - intros (ws & post & Er & _). exact (Hpos "/*# sourceMappingURL=" eq_refl _ Er).
Qed.

(** ** Effects of the script's functions *)

Lemma ev_requests_app (a b : list event) :
  ev_requests (a ++ b) = (ev_requests a ++ ev_requests b)%list.
Proof. apply flat_map_app. Qed.

Lemma ev_writes_app (a b : list event) :
  ev_writes (a ++ b) = (ev_writes a ++ ev_writes b)%list.
Proof. apply flat_map_app. Qed.

Lemma ev_stdout_app (a b : list event) :
  ev_stdout (a ++ b) = (ev_stdout a ++ ev_stdout b)%list.
Proof. apply flat_map_app. Qed.

Lemma ev_made_dirs_app (a b : list event) :
  ev_made_dirs (a ++ b) = (ev_made_dirs a ++ ev_made_dirs b)%list.
Proof. apply flat_map_app. Qed.

Lemma grow_nil (st : State) : grow st [] = st.
Proof. destruct st. unfold grow. simpl. now rewrite app_nil_r. Qed.

Lemma grow_grow (st : State) (e1 e2 : list event) :
  grow (grow st e1) e2 = grow st (e1 ++ e2).
Proof.
  unfold grow. simpl. rewrite ev_writes_app, length_app, <- app_assoc.
  f_equal. lia.
Qed.

Lemma save_events_writes (w : World) (out_dir path content : string) (evs : list event) :
  ev_writes (save_events w out_dir path content evs)
  = [(PosixPath.join out_dir path, Py.encode_utf8 content)].
Proof.
  unfold save_events.
  destruct (Py.truthy _ && negb (path_exists w evs _)); reflexivity.
Qed.

Lemma save_events_requests (w : World) (out_dir path content : string) (evs : list event) :
  ev_requests (save_events w out_dir path content evs) = [].
Proof.
  unfold save_events.
  destruct (Py.truthy _ && negb (path_exists w evs _)); reflexivity.
Qed.

Lemma save_events_stdout (w : World) (out_dir path content : string) (evs : list event) :
  ev_stdout (save_events w out_dir path content evs) = [].
Proof.
  unfold save_events.
  destruct (Py.truthy _ && negb (path_exists w evs _)); reflexivity.
Qed.

Lemma state_ext (a b : State) :
  events a = events b -> processed_maps a = processed_maps b ->
  saved_files a = saved_files b -> a = b.
Proof. destruct a, b. simpl. now intros -> -> ->. Qed.

Lemma ev_writes_get (u : string) (l : list event) : ev_writes (EvGet u :: l) = ev_writes l.
Proof. reflexivity. Qed.

Lemma ev_writes_print (line : string) (l : list event) :
  ev_writes (EvPrint line :: l) = ev_writes l.
Proof. reflexivity. Qed.

Lemma ev_requests_get (u : string) (l : list event) :
  ev_requests (EvGet u :: l) = u :: ev_requests l.
Proof. reflexivity. Qed.

Lemma ev_stdout_get (u : string) (l : list event) : ev_stdout (EvGet u :: l) = ev_stdout l.
Proof. reflexivity. Qed.

(** Equality of a result and state with a grown state, field by field. *)
Ltac same_state :=
  first
    [ reflexivity
    | apply (f_equal (pair (Ret tt))); apply state_ext; unfold grow, add_event;
      cbn [events processed_maps saved_files];
      [ rewrite <- ?app_assoc; reflexivity
      | reflexivity
      | rewrite ?ev_writes_get, ?ev_writes_app, ?save_events_writes, ?ev_writes_print;
        cbn [ev_writes flat_map List.length app]; lia ] ].

Ltac round_events :=
  rewrite ?ev_requests_get, ?ev_writes_get, ?ev_stdout_get,
    ?ev_requests_app, ?ev_writes_app, ?ev_stdout_app,
    ?save_events_requests, ?save_events_writes, ?save_events_stdout.

Section Effects.
Context (w : World).
Variable out_dir : string.

(** [try_fetch_source_by_url] makes one request and never raises. *)
Lemma try_fetch_spec (src base : string) (st : State) :
  try_fetch_source_by_url w src base st =
    (Ret (fetch_outcome (session_get w (List.length (requests st)) (urljoin w base src))),
     add_event (EvGet (urljoin w base src)) st).
Proof.
  unfold try_fetch_source_by_url, try_except, bind, get, fetch_outcome.
  destruct (session_get w _ _) as [msg|r]; simpl; [reflexivity|].
  destruct ((status_code r =? 200)%nat && Py.truthy (Py.strip_ws (text r))); reflexivity.
Qed.

Lemma save_file_spec (path content : string) (st : State) :
  save_file w out_dir path content st =
    (Ret tt, {| events := events st ++ save_events w out_dir path content (events st);
                processed_maps := processed_maps st;
                saved_files := saved_files st |}).
Proof.
  unfold save_file, bind, save_events, os_makedirs, emit, ret, add_event.
  destruct (Py.truthy _ && negb (path_exists w (events st) _));
    cbn [events processed_maps saved_files fst snd]; rewrite <- ?app_assoc; reflexivity.
Qed.

(** [save_file] followed by the count of the file. *)
Lemma save_counted_spec (path content : string) (st : State) :
  bind (save_file w out_dir path content) (fun _ => incr_saved_files) st =
    (Ret tt, grow st (save_events w out_dir path content (events st))).
Proof.
  unfold bind. rewrite save_file_spec. unfold incr_saved_files. same_state.
Qed.

(** [save_file], the count of the file and the line about it. *)
Lemma save_logged_spec (path content line : string) (st : State) :
  bind (save_file w out_dir path content)
    (fun _ => bind incr_saved_files (fun _ => print line)) st =
    (Ret tt, grow st (save_events w out_dir path content (events st) ++ [EvPrint line])).
Proof.
  unfold bind. rewrite save_file_spec. unfold incr_saved_files, print, emit. same_state.
Qed.

(** One round of the remote branch's loop. *)
Lemma remote_source_round (js_final_url sm src_root : string)
    (contents : list (option string)) (i : nat) (src : string) (st : State) :
  exists evs,
    remote_source w out_dir js_final_url sm src_root contents i src st
      = (Ret tt, grow st evs) /\
    remote_round w out_dir js_final_url sm src_root contents i src evs.
Proof.
  unfold remote_source, remote_round, source_round.
  fold (map_url_guess w js_final_url sm).
  destruct (embedded contents i) as [c|] eqn:He.
  - eexists. split.
    + unfold bind at 1. unfold ret at 1. apply save_logged_spec.
    + exists (Some c). round_events. repeat split; reflexivity.
  - set (target := urljoin w (map_url_guess w js_final_url sm) src).
    unfold bind at 1. rewrite try_fetch_spec. fold target.
    set (n := List.length (requests st)).
    destruct (fetch_outcome (session_get w n target)) as [c|] eqn:Hf.
    + exists (EvGet target ::
              save_events w out_dir (sanitize src src_root) c
                (events (add_event (EvGet target) st))
              ++ [EvPrint (" - Saved: " ++ sanitize src src_root)])%list.
      split.
      * rewrite save_logged_spec. same_state.
      * exists (Some c). round_events.
        repeat split; try reflexivity. exists n. now rewrite Hf.
    + exists [EvGet target; EvPrint (" - Could not obtain content for source: " ++ src)].
      split.
      * unfold print, emit. same_state.
      * exists None. repeat split; try reflexivity. exists n. now rewrite Hf.
Qed.

(** One round of the inline branch's loop. *)
Lemma inline_source_round (final_page_url src_root : string)
    (contents : list (option string)) (i : nat) (src : string) (st : State) :
  exists evs,
    inline_source w out_dir final_page_url src_root contents i src st
      = (Ret tt, grow st evs) /\
    inline_round w out_dir final_page_url src_root contents i src evs.
Proof.
  unfold inline_source, inline_round, source_round.
  destruct (embedded contents i) as [c|] eqn:He.
  - eexists. split.
    + unfold bind at 1. unfold ret at 1. apply save_counted_spec.
    + exists (Some c). round_events. repeat split; reflexivity.
  - set (target := urljoin w final_page_url src).
    unfold bind at 1. rewrite try_fetch_spec. fold target.
    set (n := List.length (requests st)).
    destruct (fetch_outcome (session_get w n target)) as [c|] eqn:Hf.
    + exists (EvGet target ::
              save_events w out_dir (inline_filename src src_root) c
                (events (add_event (EvGet target) st))).
      split.
      * rewrite save_counted_spec. same_state.
      * exists (Some c). round_events.
        repeat split; try reflexivity. exists n. now rewrite Hf.
    + exists [EvGet target]. split.
      * unfold ret. same_state.
      * exists None. repeat split; try reflexivity. exists n. now rewrite Hf.
Qed.

(** A loop whose rounds never raise runs through the whole list. *)
Lemma for_enumerate_rounds {A : Type} (Q : nat -> A -> list event -> Prop)
    (body : nat -> A -> M unit) :
  (forall i x st, exists evs, body i x st = (Ret tt, grow st evs) /\ Q i x evs) ->
  forall l i st,
    exists evs, for_enumerate i l body st = (Ret tt, grow st evs) /\ rounds Q i l evs.
Proof.
  intros Hbody. induction l as [|x l IH]; intros i st; simpl.
  - exists []. split; [unfold ret; now rewrite grow_nil | constructor].
  - destruct (Hbody i x st) as (e1 & H1 & Q1).
    destruct (IH (S i) (grow st e1)) as (e2 & H2 & Q2).
    exists (e1 ++ e2)%list. split.
    + unfold bind. rewrite H1, H2. now rewrite grow_grow.
    + now constructor.
Qed.

End Effects.

(** ** White space and fetched content *)

Lemma lstrip_by_empty (cs : ascii -> bool) (s : string) :
  Py.lstrip_by cs s = "" -> forallb_str cs s = true.
Proof.
  induction s as [|c s IH]; simpl; [reflexivity|].
  destruct (cs c); [exact IH | discriminate].
Qed.

Lemma rstrip_by_empty (cs : ascii -> bool) (s : string) :
  Py.rstrip_by cs s = "" -> forallb_str cs s = true.
Proof.
  induction s as [|c s IH]; simpl; [reflexivity|].
  destruct (Py.rstrip_by cs s) as [|d r]; [|discriminate].
  destruct (cs c); [intros _; now apply IH | discriminate].
Qed.

Lemma rstrip_by_all_empty (cs : ascii -> bool) (s : string) :
  forallb_str cs (Py.rstrip_by cs s) = true -> Py.rstrip_by cs s = "".
Proof.
  induction s as [|c s IH]; simpl; [reflexivity|].
  destruct (Py.rstrip_by cs s) as [|d r].
  - destruct (cs c) eqn:Hc; [reflexivity|]. simpl. now rewrite Hc.
  - intros H. apply andb_true_iff in H as [_ H]. specialize (IH H). discriminate.
Qed.

(** [s.strip()] is empty exactly when [s] is white space throughout. *)
Lemma strip_by_empty_iff (cs : ascii -> bool) (s : string) :
  Py.strip_by cs s = "" <-> forallb_str cs s = true.
Proof.
  unfold Py.strip_by. split.
  - intros H. apply lstrip_by_empty in H. apply rstrip_by_all_empty in H.
    now apply rstrip_by_empty.
  - intros H. now rewrite (rstrip_by_all _ _ H).
Qed.



Lemma encode_utf8_nil (c : string) : Py.encode_utf8 c = [] -> c = "".
Proof.
  destruct c as [|x c]; [reflexivity|]. simpl.
  destruct (Py.code x <? 128)%nat; discriminate.
Qed.

(** ** The per-source loops *)

Section Rounds.
Context (w : World).
Variables (path : string -> string) (base : string).
Variables (log_ok log_fail : string -> list string).
Variable contents : list (option string).

Let round (i : nat) (src : string) (evs : list event) : Prop :=
  source_round w (path src) base (log_ok src) (log_fail src) contents i src evs.

(** The loop requests one URL for each source without embedded content,
    and nothing for the others. *)
Lemma rounds_requests (i : nat) (srcs : list string) (evs : list event) :
  rounds round i srcs evs ->
  ev_requests evs = fetch_targets (urljoin w) base contents i srcs.
Proof.
  induction 1 as [i|i src l e1 e2 (chosen & Hc & _) _ IH]; [reflexivity|].
  rewrite ev_requests_app, IH. simpl.
  destruct (embedded contents i) as [c|].
  - destruct Hc as [_ ->]. reflexivity.
  - destruct Hc as [-> _]. reflexivity.
Qed.




(** What the loop prints, round by round. *)
Lemma rounds_stdout_fail (i : nat) (srcs : list string) (evs : list event) :
  rounds round i srcs evs ->
  forall (k : nat) (src : string),
    nth_error srcs k = Some src -> embedded contents (i + k) = None ->
    (forall n, fetch_outcome (session_get w n (urljoin w base src)) = None) ->
    incl (log_fail src) (ev_stdout evs).
Proof.
  induction 1 as [i|i src0 l e1 e2 (chosen & Hc & _ & Hs) _ IH]; intros k src Hk He Hf.
  - destruct k; discriminate.
  - rewrite ev_stdout_app. destruct k as [|k]; simpl in Hk.
    + injection Hk as ->. rewrite Nat.add_0_r in He. rewrite He in Hc.
      destruct Hc as [_ [n ->]]. rewrite Hf in Hs. rewrite Hs.
      apply incl_appl, incl_refl.
    + apply incl_appr. apply (IH k src Hk); [|exact Hf].
      now rewrite Nat.add_succ_r in He.
Qed.

End Rounds.

Section Loops.
Context (w : World).
Variable out_dir : string.

Lemma remote_loop_rounds (js_final_url sm src_root : string)
    (contents : list (option string)) (srcs : list string) (i : nat) (st : State) :
  exists evs,
    for_enumerate i srcs (remote_source w out_dir js_final_url sm src_root contents) st
      = (Ret tt, grow st evs) /\
    rounds (remote_round w out_dir js_final_url sm src_root contents) i srcs evs.
Proof. apply for_enumerate_rounds. intros. apply remote_source_round. Qed.

Lemma inline_loop_rounds (final_page_url src_root : string)
    (contents : list (option string)) (srcs : list string) (i : nat) (st : State) :
  exists evs,
    for_enumerate i srcs (inline_source w out_dir final_page_url src_root contents) st
      = (Ret tt, grow st evs) /\
    rounds (inline_round w out_dir final_page_url src_root contents) i srcs evs.
Proof. apply for_enumerate_rounds. intros. apply inline_source_round. Qed.

Lemma requests_grow (st : State) (evs : list event) :
  requests (grow st evs) = (requests st ++ ev_requests evs)%list.
Proof. unfold requests, grow. simpl. apply ev_requests_app. Qed.


Lemma stdout_grow (st : State) (evs : list event) :
  stdout (grow st evs) = (stdout st ++ ev_stdout evs)%list.
Proof. unfold stdout, grow. simpl. apply ev_stdout_app. Qed.


(** ** Every step only adds events *)

Lemma extends_ret {A : Type} (a : A) : extends (ret a).
Proof. intros st. exists []. simpl. now rewrite app_nil_r. Qed.

Lemma extends_raise {A : Type} (e : exn) : extends (@raise A e).
Proof. intros st. exists []. simpl. now rewrite app_nil_r. Qed.

Lemma extends_emit (e : event) : extends (emit e).
Proof. intros st. now exists [e]. Qed.

Lemma extends_bind {A B : Type} (m : M A) (f : A -> M B) :
  extends m -> (forall a, extends (f a)) -> extends (bind m f).
Proof.
  intros Hm Hf st. unfold bind.
  destruct (Hm st) as [e1 H1]. destruct (m st) as [[a|e] st1]; simpl in H1.
  - destruct (Hf a st1) as [e2 H2]. exists (e1 ++ e2)%list.
    now rewrite H2, H1, app_assoc.
  - now exists e1.
Qed.

Lemma extends_try {A : Type} (m : M A) (h : exn -> M A) :
  extends m -> (forall e, extends (h e)) -> extends (try_except m h).
Proof.
  intros Hm Hh st. unfold try_except.
  destruct (Hm st) as [e1 H1]. destruct (m st) as [[a|e] st1]; simpl in H1.
  - now exists e1.
  - destruct (is_Exception e); [|now exists e1].
    destruct (Hh e st1) as [e2 H2]. exists (e1 ++ e2)%list.
    now rewrite H2, H1, app_assoc.
Qed.

Lemma extends_state {A : Type} (f : State -> M A) :
  (forall s, extends (f s)) -> extends (fun st => f st st).
Proof. intros H st. apply (H st st). Qed.

Lemma extends_for_each {A : Type} (l : list A) (body : A -> M unit) :
  (forall x, extends (body x)) -> extends (for_each l body).
Proof.
  intros H. induction l as [|x l IH]; simpl; [apply extends_ret|].
  apply extends_bind; [apply H | intros _; exact IH].
Qed.

Lemma extends_for_enumerate {A : Type} (l : list A) (body : nat -> A -> M unit) :
  (forall i x, extends (body i x)) -> forall i, extends (for_enumerate i l body).
Proof.
  intros H. induction l as [|x l IH]; intros i; simpl; [apply extends_ret|].
  apply extends_bind; [apply H | intros _; apply IH].
Qed.

Lemma extends_incr_processed : extends incr_processed_maps.
Proof. intros st. exists []. simpl. now rewrite app_nil_r. Qed.

Lemma extends_incr_saved : extends incr_saved_files.
Proof. intros st. exists []. simpl. now rewrite app_nil_r. Qed.

Lemma extends_get (target : string) : extends (get w target).
Proof.
  intros st. exists [EvGet target]. unfold get.
  destruct (session_get w _ _); reflexivity.
Qed.

Lemma extends_raise_for_status (r : Response) : extends (raise_for_status r).
Proof.
  unfold raise_for_status.
  destruct (_ && _); [apply extends_raise|].
  destruct (_ && _); [apply extends_raise | apply extends_ret].
Qed.

Lemma extends_loads (s : string) : extends (loads w s).
Proof. unfold loads. destruct (json_loads w s); [apply extends_raise | apply extends_ret]. Qed.

Lemma extends_decode_b64 (s : string) : extends (decode_b64 w s).
Proof.
  unfold decode_b64. destruct (b64decode w s); [apply extends_raise | apply extends_ret].
Qed.

Lemma extends_save_file (path content : string) : extends (save_file w out_dir path content).
Proof. intros st. rewrite save_file_spec. simpl. eauto. Qed.

Lemma extends_try_fetch (src base : string) : extends (try_fetch_source_by_url w src base).
Proof. intros st. rewrite try_fetch_spec. simpl. eauto. Qed.







End Loops.

(** The facts about rounds, for the two loops of the script. *)
Section BranchRounds.
Context (w : World).
Variables (out_dir src_root : string) (contents : list (option string)).

Section Remote.
Variables js_final_url sm : string.

Let rpath (src : string) : string := PosixPath.join out_dir (sanitize src src_root).
Let rok (src : string) : list string := [" - Saved: " ++ sanitize src src_root].
Let rfail (src : string) : list string :=
  [" - Could not obtain content for source: " ++ src].

Lemma remote_rounds_requests (i : nat) (srcs : list string) (evs : list event) :
  rounds (remote_round w out_dir js_final_url sm src_root contents) i srcs evs ->
  ev_requests evs =
    fetch_targets (urljoin w) (map_url_guess w js_final_url sm) contents i srcs.
Proof. exact (rounds_requests w rpath _ rok rfail contents i srcs evs). Qed.




Lemma remote_rounds_stdout_fail (i : nat) (srcs : list string) (evs : list event) :
  rounds (remote_round w out_dir js_final_url sm src_root contents) i srcs evs ->
  forall (k : nat) (src : string),
    nth_error srcs k = Some src -> embedded contents (i + k) = None ->
    (forall n, fetch_outcome
                 (session_get w n (urljoin w (map_url_guess w js_final_url sm) src)) = None) ->
    In (" - Could not obtain content for source: " ++ src) (ev_stdout evs).
Proof.
  intros H k src Hk He Hf.
  apply (rounds_stdout_fail w rpath _ rok rfail contents i srcs evs H k src Hk He Hf).
  now left.
Qed.

End Remote.

Section Inline.
Variable final_page_url : string.

Let ipath (src : string) : string := PosixPath.join out_dir (inline_filename src src_root).
Let inone (src : string) : list string := [].

Lemma inline_rounds_requests (i : nat) (srcs : list string) (evs : list event) :
  rounds (inline_round w out_dir final_page_url src_root contents) i srcs evs ->
  ev_requests evs = fetch_targets (urljoin w) final_page_url contents i srcs.
Proof. exact (rounds_requests w ipath _ inone inone contents i srcs evs). Qed.




(** The inline loop prints nothing. *)
Lemma inline_rounds_stdout (i : nat) (srcs : list string) (evs : list event) :
  rounds (inline_round w out_dir final_page_url src_root contents) i srcs evs ->
  ev_stdout evs = [].
Proof.
  induction 1 as [i|i src l e1 e2 (chosen & _ & _ & Hs) _ IH]; [reflexivity|].
  rewrite ev_stdout_app, IH, Hs. now destruct chosen.
Qed.

End Inline.
End BranchRounds.

(** * The claims *)

(** ** C2: the path clean-up *)

(** C2, counterexample: an entry with two scheme prefixes keeps the second
    one, so the cleaned path still begins with a scheme. *)
Lemma sanitize_keeps_second_scheme :
  has_scheme_prefix "webpack:///file:///etc/x.js" = true /\
  sanitize "webpack:///file:///etc/x.js" "" = "file:///etc/x.js" /\
  has_scheme_prefix (sanitize "webpack:///file:///etc/x.js" "") = true.
Proof. repeat split; reflexivity. Qed.

(** C2, as amended: the cleaned path never begins with [/], whatever the
    entry and the source root; [sanitize "webpack:///src/x.js" ""] is
    ["src/x.js"]; from an entry that begins with lower-case letters and a
    colon, that one prefix and every slash after it are removed (what
    follows is kept, a further scheme included); a non-empty source root
    is put in front with its leading and trailing slashes trimmed. *)
Theorem sanitize_guarantee :
  (forall src src_root, Py.startswith (sanitize src src_root) "/" = false) /\
  sanitize "webpack:///src/x.js" "" = "src/x.js" /\
  (forall letters rest,
      letters <> "" -> forallb_str Re.lower letters = true ->
      sanitize (letters ++ ":" ++ rest) "" = Py.lstrip "/" rest) /\
  (forall src src_root,
      src_root <> "" ->
      sanitize src src_root =
        match Py.strip "/" src_root with
        | EmptyString => sanitize src ""
        | root => root ++ "/" ++ sanitize src ""
        end).
Proof.
  split; [exact sanitize_no_leading_slash|].
  split; [reflexivity|].
  split; [exact sanitize_scheme | exact sanitize_with_root].
Qed.

Lemma clean_up_of_file_scheme :
  sanitize ("file" ++ ":" ++ "///a/b.js") "" = Py.lstrip "/" "///a/b.js" /\
  sanitize "a.js" "/lib/" =
    match Py.strip "/" "/lib/" with
    | EmptyString => sanitize "a.js" ""
    | root => root ++ "/" ++ sanitize "a.js" ""
    end.
Proof.
  split.
  - apply (proj1 (proj2 (proj2 sanitize_guarantee))); [discriminate | reflexivity].
  - apply (proj2 (proj2 (proj2 sanitize_guarantee))). discriminate.
Defined.

(** ** C9: the mapping reference *)

(** C9: [extract_mapping_reference] returns the trimmed value of the first
    mapping comment of either form, the longest value for the block form;
    it returns [None] only when no mapping comment begins anywhere; and on
    a body whose first mapping comment is the line
    [//# sourceMappingURL=foo.js.map] it returns ["foo.js.map"]. *)
Theorem extract_mapping_reference_correct :
  (forall js r,
      extract_mapping_reference js = Some r ->
      exists pre rest v,
        js = pre ++ rest /\ comment_value_at rest v /\ r = Py.strip_ws v /\
        no_comment_before js (String.length pre)) /\
  (forall js,
      extract_mapping_reference js = None ->
      forall pre rest v,
        js = pre ++ rest -> ~ line_comment_at rest v /\ ~ block_comment_at rest v) /\
  (forall pre trail post,
      no_comment_before (pre ++ "//# sourceMappingURL=foo.js.map" ++ trail ++ post)
                        (String.length pre) ->
      forallb_str Re.space trail = true -> forallb_str Re.dot trail = true ->
      line_end post ->
      extract_mapping_reference (pre ++ "//# sourceMappingURL=foo.js.map" ++ trail ++ post)
      = Some "foo.js.map").
Proof.
  split; [exact extract_some|]. split; [exact extract_none | exact extract_foo].
Qed.

Lemma reference_found_before_crlf :
  extract_mapping_reference
    (("var a=1;" ++ newline) ++ "//# sourceMappingURL=foo.js.map"
       ++ String "013" "" ++ (newline ++ "go();"))
  = Some "foo.js.map".
Proof.
  apply (proj2 (proj2 extract_mapping_reference_correct)).
  - apply (no_hash_no_comment ("var a=1;" ++ newline)); reflexivity.
  - reflexivity.
  - reflexivity.
  - right. now exists "go();".
Defined.

(** ** C6: what a fetched source must look like *)



(** ** C4: embedded content *)

Lemma embedded_nth (contents : list (option string)) (i : nat) (c : string) :
  nth_error contents i = Some (Some c) -> embedded contents i = Some c.
Proof. unfold embedded. now intros ->. Qed.



(** ** C5: how many files, and what is in them *)



(** ** C1: where the files go *)



(** ** C3: what stops the run *)

(** A [data:] reference without [base64] in its header whose payload
    [json.loads] rejects makes [handle_map_url] raise. *)
Lemma handle_map_url_data_raises (w : World) (sm header payload base msg : string)
    (st : State) :
  Py.startswith sm "data:" = true ->
  Py.split_once "," sm = Some (header, payload) ->
  Py.contains "base64" header = false ->
  json_loads w payload = inl msg ->
  handle_map_url w sm base st = (Raise (ValueError msg), st).
Proof.
  intros Hd Hs Hb Hj. unfold handle_map_url, bind, loads.
  now rewrite Hd, Hs, Hb, Hj.
Qed.

(** C3, the run that fails: an inline script whose [data:] reference holds
    text that is not JSON ends the run with the [ValueError] of
    [json.loads]; the script after it is never fetched and no summary is
    printed. *)
Theorem bad_data_uri_stops_run :
  extract_mapping_reference "//# sourceMappingURL=data:application/json,{oops"
    = Some "data:application/json,{oops" /\
  fst (run bad_data_world argv0)
    = Raise (ValueError "Expecting value: line 1 column 1 (char 0)") /\
  requests (snd (run bad_data_world argv0)) = ["http://site/index.html"] /\
  stdout (snd (run bad_data_world argv0))
    = ["Found 2 script entries on http://site/index.html";
       "Inline script mapping: data:application/json,{oops"].
Proof. repeat split; reflexivity. Qed.

(** ** C7: a source without content *)

(** In the remote branch a source that cannot be had is reported by name,
    and the loop goes on to the end of the map. *)
Lemma remote_missing_source_logged (w : World) (out_dir : string) (d : SourceMap)
    (js_final_url sm : string) (st : State) (k : nat) (src : string) :
  nth_error (sources d) k = Some src ->
  embedded (sourcesContent d) k = None ->
  (forall n, fetch_outcome
               (session_get w n (urljoin w (map_url_guess w js_final_url sm) src)) = None) ->
  let r := for_enumerate 0 (sources d)
             (remote_source w out_dir js_final_url sm (sourceRoot d) (sourcesContent d))
             st in
  fst r = Ret tt /\
  In (" - Could not obtain content for source: " ++ src) (stdout (snd r)) /\
  requests (snd r) =
    (requests st ++ fetch_targets (urljoin w) (map_url_guess w js_final_url sm)
                      (sourcesContent d) 0 (sources d))%list.
Proof.
  intros Hk He Hf.
  destruct (remote_loop_rounds w out_dir js_final_url sm (sourceRoot d) (sourcesContent d)
              (sources d) 0 st) as (evs & -> & Hr).
  cbn [fst snd]. rewrite stdout_grow, requests_grow. repeat split.
  - apply in_or_app. right.
    exact (remote_rounds_stdout_fail _ _ _ _ _ _ _ _ _ Hr k src Hk He Hf).
  - f_equal. exact (remote_rounds_requests _ _ _ _ _ _ _ _ _ Hr).
Qed.

(** The inline branch's loop also runs to the end of the map, but prints
    nothing. *)
Lemma inline_loop_silent (w : World) (out_dir : string) (d : SourceMap)
    (final_page_url : string) (st : State) :
  let r := for_enumerate 0 (sources d)
             (inline_source w out_dir final_page_url (sourceRoot d) (sourcesContent d))
             st in
  fst r = Ret tt /\ stdout (snd r) = stdout st /\
  requests (snd r) =
    (requests st ++ fetch_targets (urljoin w) final_page_url
                      (sourcesContent d) 0 (sources d))%list.
Proof.
  destruct (inline_loop_rounds w out_dir final_page_url (sourceRoot d) (sourcesContent d)
              (sources d) 0 st) as (evs & -> & Hr).
  cbn [fst snd]. rewrite stdout_grow, requests_grow. repeat split.
  - rewrite (inline_rounds_stdout _ _ _ _ _ _ _ _ Hr). apply app_nil_r.
  - f_equal. exact (inline_rounds_requests _ _ _ _ _ _ _ _ Hr).
Qed.

(** C7, the run that fails: the same map, with one source that cannot be
    had, comes once through an inline script and once through a remote
    script; both requests for the source are made and fail, and only the
    remote one is reported. *)
Theorem inline_missing_source_not_logged :
  fst (run silent_world argv0) = Ret tt /\
  requests (snd (run silent_world argv0))
    = ["http://site/index.html"; "http://site/a.js";
       "http://site/js/app.js"; "http://site/js/a.js"] /\
  stdout (snd (run silent_world argv0))
    = ["Found 2 script entries on http://site/index.html";
       "Inline script mapping: data:application/json," ++ no_content_text;
       "Found map reference for http://site/js/app.js: data:application/json,"
         ++ no_content_text;
       " - Could not obtain content for source: a.js";
       "Processed 2 maps, saved 0 files to 'out'."].
Proof. repeat split; reflexivity. Qed.

(** ** C8: the base a source is resolved against *)






(** ** C10: the output directory *)



(** * Further properties of the script *)

(** ** The start of a run *)

(** X1 (lines 24-26): with fewer than two arguments the run prints the
    usage line and exits with status 1; it makes no directory, requests
    nothing and writes nothing. *)
Theorem usage_exit (w : World) (argv : list string) :
  List.length argv < 3 ->
  fst (run w argv) = Raise (SystemExit 1) /\
  stdout (snd (run w argv))
    = ["Usage: python grab_sources_from_site.py <page-url> <output-dir>"] /\
  made_dirs (snd (run w argv)) = [] /\
  requests (snd (run w argv)) = [] /\
  writes (snd (run w argv)) = [].
Proof.
  intros H. unfold run, script.
  destruct (Nat.ltb_spec (List.length argv) 3) as [_|L]; [|lia].
  repeat split; reflexivity.
Qed.

Lemma usage_exit_one_argument :
  fst (run offline_world ["grab_sources_from_site.py"; "http://site/index.html"])
    = Raise (SystemExit 1) /\
  made_dirs (snd (run offline_world ["grab_sources_from_site.py"; "http://site/index.html"]))
    = [].
Proof.
  destruct (usage_exit offline_world ["grab_sources_from_site.py"; "http://site/index.html"])
    as (H1 & _ & H3 & _); [simpl; lia|].
  split; assumption.
Defined.

Lemma raise_for_status_spec (r : Response) (st : State) :
  snd (raise_for_status r st) = st /\
  (error_status (status_code r) = false -> fst (raise_for_status r st) = Ret tt) /\
  (error_status (status_code r) = true ->
   exists msg, fst (raise_for_status r st) = Raise (HTTPError msg)).
Proof.
  unfold raise_for_status, error_status.
  destruct (Nat.leb_spec 400 (status_code r)) as [L4|L4];
    destruct (Nat.ltb_spec (status_code r) 500) as [L5|L5];
    destruct (Nat.leb_spec 500 (status_code r)) as [L5'|L5'];
    destruct (Nat.ltb_spec (status_code r) 600) as [L6|L6];
    simpl; try lia; repeat split; try discriminate; eauto.
Qed.




(** ** Counters and exceptions over a whole run *)






























(** ** Loading a map *)

Lemma stdout_add_print (line : string) (st : State) :
  stdout (add_event (EvPrint line) st) = (stdout st ++ [line])%list.
Proof. unfold stdout, add_event. cbn [events]. now rewrite ev_stdout_app. Qed.

Lemma stdout_add_get (u : string) (st : State) :
  stdout (add_event (EvGet u) st) = stdout st.
Proof. unfold stdout, add_event. cbn [events]. rewrite ev_stdout_app. apply app_nil_r. Qed.

Lemma requests_add_print (line : string) (st : State) :
  requests (add_event (EvPrint line) st) = requests st.
Proof. unfold requests, add_event. cbn [events]. rewrite ev_requests_app. apply app_nil_r. Qed.

Lemma writes_add_print (line : string) (st : State) :
  writes (add_event (EvPrint line) st) = writes st.
Proof. unfold writes, add_event. cbn [events]. rewrite ev_writes_app. apply app_nil_r. Qed.

Lemma writes_add_get (u : string) (st : State) :
  writes (add_event (EvGet u) st) = writes st.
Proof. unfold writes, add_event. cbn [events]. rewrite ev_writes_app. apply app_nil_r. Qed.

(** A reference that is not a [data:] URI, once its URL is joined: the
    request, the status check and the parse are inside the [try]. *)
Lemma handle_map_url_joined (w : World) (sm base : string) (st : State) :
  Py.startswith sm "data:" = false ->
  let full := urljoin w base sm in
  let out := handle_map_url w sm base st in
  exists res,
    fst out = Ret res /\ writes (snd out) = writes st /\
    (forall j, res = Some j <->
               exists r, session_get w (List.length (requests st)) full = inr r /\
                         error_status (status_code r) = false /\
                         json_loads w (text r) = inr j) /\
    match res with
    | Some _ => stdout (snd out) = stdout st
    | None =>
        exists msg,
          stdout (snd out)
          = (stdout st ++ [("Failed to fetch/parse map at " ++ full ++ ": " ++ msg)%string])%list
    end.
Proof.
  intros Hd full out. unfold out, handle_map_url. rewrite Hd. fold full.
  unfold try_except, bind, get, loads, print, emit, ret, raise.
  destruct (session_get w (List.length (requests st)) full) as [msg|r] eqn:Hget.
  - cbn [is_Exception]. exists None. cbn [fst snd].
    rewrite writes_add_print, writes_add_get, stdout_add_print, stdout_add_get.
    repeat split; try discriminate.
    + intros (r & H & _). discriminate H.
    + now exists msg.
  - set (st1 := add_event (EvGet full) st).
    destruct (raise_for_status_spec r st1) as (Hst & Hok & Herr).
    destruct (error_status (status_code r)) eqn:Hs.
    + destruct (Herr eq_refl) as [m Hm].
      destruct (raise_for_status r st1) as [[u|e] st2]; cbn [fst snd] in *;
        [discriminate|]. injection Hm as ->. subst st2. cbn [is_Exception].
      exists None. cbn [fst snd].
      unfold st1. rewrite writes_add_print, writes_add_get, stdout_add_print, stdout_add_get.
      repeat split; try discriminate.
      * intros (r' & H & E & _). injection H as <-. congruence.
      * now exists m.
    + specialize (Hok eq_refl).
      destruct (raise_for_status r st1) as [[u|e] st2]; cbn [fst snd] in *;
        [|discriminate]. subst st2.
      destruct (json_loads w (text r)) as [m|j] eqn:Hj; cbn [is_Exception fst snd].
      * exists None. cbn [fst snd]. unfold st1.
        rewrite writes_add_print, writes_add_get, stdout_add_print, stdout_add_get.
        repeat split; try discriminate.
        -- intros (r' & H & _ & Hj'). injection H as <-. congruence.
        -- now exists m.
      * exists (Some j). unfold st1. rewrite writes_add_get, stdout_add_get.
        repeat split.
        -- intros H. injection H as <-. now exists r.
        -- intros (r' & H & _ & Hj'). injection H as <-. congruence.
Qed.


Lemma split_once_first (sep : ascii) (header payload : string) :
  Py.mem sep header = false ->
  Py.split_once sep (header ++ String sep payload) = Some (header, payload).
Proof.
  induction header as [|c h IH]; simpl; intros H.
  - now rewrite Ascii.eqb_refl.
  - apply orb_false_iff in H as [Hc Hh]. rewrite Ascii.eqb_sym in Hc.
    rewrite Hc. now rewrite (IH Hh).
Qed.

Lemma split_once_absent (sep : ascii) (s : string) :
  Py.mem sep s = false -> Py.split_once sep s = None.
Proof.
  induction s as [|c s IH]; simpl; intros H; [reflexivity|].
  apply orb_false_iff in H as [Hc Hs]. rewrite Ascii.eqb_sym in Hc.
  rewrite Hc. now rewrite (IH Hs).
Qed.

(** X7 (lines 75-86): a [data:] reference is cut at its first comma; the
    text after it, further commas included, goes to [base64.b64decode]
    and then [json.loads] when the text before it contains [base64]
    anywhere, and straight to [json.loads] otherwise; what they raise is
    not caught.  A [data:] reference without a comma gives [None].
    Nothing is requested, printed or written either way. *)
Theorem data_uri_decoding (w : World) (base : string) (st : State) :
  (forall header payload,
      Py.mem "," header = false ->
      Py.startswith (header ++ "," ++ payload) "data:" = true ->
      handle_map_url w (header ++ "," ++ payload) base st =
        (match (if Py.contains "base64" header
                then match b64decode w payload with
                     | inl msg => inl msg
                     | inr raw => json_loads w raw
                     end
                else json_loads w payload) with
         | inl msg => Raise (ValueError msg)
         | inr j => Ret (Some j)
         end, st)) /\
  (forall sm,
      Py.mem "," sm = false -> Py.startswith sm "data:" = true ->
      handle_map_url w sm base st = (Ret None, st)).
Proof.
  split.
  - intros header payload Hc Hd. unfold handle_map_url. rewrite Hd.
    change (header ++ "," ++ payload) with (header ++ String "," payload).
    rewrite (split_once_first _ _ _ Hc).
    unfold bind, decode_b64, loads, ret, raise.
    destruct (Py.contains "base64" header).
    + destruct (b64decode w payload) as [msg|raw]; [reflexivity|].
      destruct (json_loads w raw); reflexivity.
    + destruct (json_loads w payload); reflexivity.
  - intros sm Hc Hd. unfold handle_map_url. rewrite Hd.
    now rewrite (split_once_absent _ _ Hc).
Qed.

Lemma data_uri_decoding_examples :
  handle_map_url silent_world ("data:application/json" ++ "," ++ no_content_text)
    "http://site/index.html" initial
    = (Ret (Some (source_map "" ["a.js"] [])), initial) /\
  handle_map_url silent_world "data:application/json;base64" "http://site/index.html" initial
    = (Ret None, initial).
Proof.
  destruct (data_uri_decoding silent_world "http://site/index.html" initial) as [H1 H2].
  split.
  - apply (H1 "data:application/json" no_content_text); reflexivity.
  - apply H2; reflexivity.
Defined.

(** ** A script that cannot be fetched *)

(** X8 (lines 150-158): when the request for a remote script fails, or
    answers with a status from 400 to 599, the entry is given up without
    an exception: one request was made, one line naming the script is
    printed, nothing is written and no counter moves. *)
Theorem script_fetch_failure_skips_entry (w : World) (out_dir js_url : string) (st : State) :
  (exists msg, session_get w (List.length (requests st)) js_url = inl msg) \/
  (exists r, session_get w (List.length (requests st)) js_url = inr r /\
             error_status (status_code r) = true) ->
  let out := remote_entry w out_dir js_url st in
  fst out = Ret tt /\
  (exists msg,
      events (snd out)
      = (events st ++ [EvGet js_url;
                       EvPrint ("Failed to fetch JS " ++ js_url ++ ": " ++ msg)])%list) /\
  processed_maps (snd out) = processed_maps st /\
  saved_files (snd out) = saved_files st.
Proof.
  intros H out. unfold out, remote_entry, try_except, bind, get, print, emit, ret.
  destruct H as [[msg Hget]|(r & Hget & Hs)]; rewrite Hget.
  - cbn [is_Exception]. unfold add_event.
    cbn [fst snd events processed_maps saved_files].
    repeat split. exists msg. now rewrite <- app_assoc.
  - set (st1 := add_event (EvGet js_url) st).
    destruct (raise_for_status_spec r st1) as (Hst & _ & Herr).
    destruct (Herr Hs) as [m Hm].
    destruct (raise_for_status r st1) as [[u|e] st2]; cbn [fst snd] in *; [discriminate|].
    injection Hm as ->. subst st2. cbn [is_Exception].
    unfold st1, add_event.
    cbn [fst snd events processed_maps saved_files].
    repeat split. exists m. now rewrite <- app_assoc.
Qed.

Lemma lost_script_is_skipped :
  fst (remote_entry lost_script_world "out" "http://site/js/app.js" initial) = Ret tt /\
  saved_files (snd (remote_entry lost_script_world "out" "http://site/js/app.js" initial)) = 0.
Proof.
  destruct (script_fetch_failure_skips_entry lost_script_world "out"
              "http://site/js/app.js" initial) as (H1 & _ & _ & H4).
  - right. exists (response 404 "http://site/js/app.js" ""). split; reflexivity.
  - split; [exact H1 | exact H4].
Defined.

(** ** More on the path clean-up *)

Lemma sub_scheme_no_match (s : string) :
  Re.match_here false scheme_re None s = None -> Re.sub false scheme_re "" s = s.
Proof.
  intros H. unfold Re.sub. cbn [Re.sub_from]. rewrite H.
  destruct s as [|c s]; [reflexivity|]. now rewrite sub_scheme_after_start.
Qed.

Lemma sub_scheme_suffix (s : string) : exists pre, s = pre ++ Re.sub false scheme_re "" s.
Proof.
  destruct (Re.match_here false scheme_re None s) as [m|] eqn:Hm.
  - destruct (scheme_match_sound _ _ Hm) as (l & sl & E & _ & _ & _ & _ & d & Hd).
    unfold Re.sub. cbn [Re.sub_from]. rewrite Hm.
    assert (L : (String.length (Re.m_rest m) <? String.length s)%nat = true).
    { apply Nat.ltb_lt. rewrite E. rewrite !length_append. simpl. lia. }
    rewrite L, Hd. simpl append at 2. rewrite sub_scheme_after_start.
    exists (l ++ ":" ++ sl). rewrite E at 1. now rewrite !append_assoc.
  - exists "". now rewrite sub_scheme_no_match.
Qed.

Lemma lstrip_by_suffix (cs : ascii -> bool) (s : string) :
  exists pre, s = pre ++ Py.lstrip_by cs s.
Proof.
  induction s as [|c s [pre IH]]; simpl.
  - now exists "".
  - destruct (cs c); [|now exists ""].
    exists (String c pre). simpl. now rewrite <- IH.
Qed.

(** X9 (lines 180-183): with an empty source root the cleaned path is
    the entry with some prefix dropped, nothing else is changed; and an
    entry that does not begin with lower-case letters and a colon (one
    with a capital in its scheme, say) loses its leading slashes only. *)
Theorem sanitize_only_drops_a_prefix :
  (forall src, exists pre, src = pre ++ sanitize src "") /\
  (forall src,
      (forall letters rest,
          src = letters ++ ":" ++ rest -> forallb_str Re.lower letters = true ->
          letters = "") ->
      sanitize src "" = Py.lstrip "/" src).
Proof.
  split.
  - intros src. unfold sanitize. cbn [Py.truthy].
    destruct (sub_scheme_suffix src) as [p1 H1].
    destruct (lstrip_by_suffix (fun c => Py.mem c "/") (Re.sub false scheme_re "" src))
      as [p2 H2].
    exists (p1 ++ p2). rewrite append_assoc. unfold Py.lstrip. now rewrite <- H2.
  - intros src H. unfold sanitize. cbn [Py.truthy].
    destruct (Re.match_here false scheme_re None src) as [m|] eqn:Hm.
    + destruct (scheme_match_sound _ _ Hm) as (l & sl & E & Hne & Hl & _).
      exfalso. apply Hne. apply (H l (sl ++ Re.m_rest m)); assumption.
    + now rewrite sub_scheme_no_match.
Qed.

Lemma capital_scheme_is_kept : sanitize "Webpack:///src/x.js" "" = Py.lstrip "/" "Webpack:///src/x.js".
Proof.
  apply (proj2 sanitize_only_drops_a_prefix).
  intros [|c l] rest E Hl; [reflexivity|].
  simpl in E. injection E as <- _. discriminate Hl.
Defined.

(** ** The inline branch's file names *)




(** ** The shape of a mapping reference *)

Lemma forallb_str_lstrip (cs p : ascii -> bool) (s : string) :
  forallb_str p s = true -> forallb_str p (Py.lstrip_by cs s) = true.
Proof.
  induction s as [|c s IH]; simpl; [reflexivity|].
  intros H. destruct (cs c); [|exact H].
  apply andb_true_iff in H as [_ H]. now apply IH.
Qed.

Lemma forallb_str_rstrip (cs p : ascii -> bool) (s : string) :
  forallb_str p s = true -> forallb_str p (Py.rstrip_by cs s) = true.
Proof.
  induction s as [|c s IH]; simpl; [reflexivity|].
  intros H. apply andb_true_iff in H as [Hc H]. specialize (IH H).
  destruct (Py.rstrip_by cs s) as [|d r].
  - destruct (cs c); simpl; [reflexivity | now rewrite Hc].
  - simpl in *. now rewrite Hc, IH.
Qed.

(** X11 (lines 64-71): a reference that [extract_mapping_reference]
    returns holds no line feed and neither begins nor ends with a white
    space character. *)
Theorem reference_is_one_trimmed_line (js r : string) :
  extract_mapping_reference js = Some r ->
  forallb_str Re.dot r = true /\
  forall c, Py.isspace c = true ->
            Py.startswith r (String c "") = false /\ Py.endswith_char r c = false.
Proof.
  intros H. destruct (extract_some _ _ H) as (pre & rest & v & _ & Hv & -> & _).
  assert (Hdot : forallb_str Re.dot v = true).
  { destruct Hv as [(post & _ & _ & Hd & _)|[(ws & post & _ & _ & Hd & _) _]]; exact Hd. }
  split.
  - unfold Py.strip_ws, Py.strip_by. now apply forallb_str_lstrip, forallb_str_rstrip.
  - intros c Hc. unfold Py.strip_ws, Py.strip_by. split.
    + pose proof (lstrip_by_not_head Py.isspace (Py.rstrip_by Py.isspace v)) as Hh.
      unfold Py.startswith.
      destruct (Py.lstrip_by Py.isspace (Py.rstrip_by Py.isspace v)) as [|d t];
        [reflexivity|]. simpl.
      destruct (Ascii.eqb_spec c d) as [->|]; [congruence | reflexivity].
    + now apply lstrip_by_keeps_last, rstrip_by_not_last.
Qed.

Lemma padded_reference_is_trimmed :
  forallb_str Re.dot "app.js.map" = true /\
  forall c, Py.isspace c = true ->
            Py.startswith "app.js.map" (String c "") = false /\
            Py.endswith_char "app.js.map" c = false.
Proof.
  apply (reference_is_one_trimmed_line "/*# sourceMappingURL=  app.js.map  */").
  reflexivity.
Defined.

(** ** The page and its scripts *)








(** ** The first line comment *)

Lemma extract_first_line_comment (pre rest v : string) :
  line_comment_at rest v ->
  no_comment_before (pre ++ rest) (String.length pre) ->
  extract_mapping_reference (pre ++ rest) = Some (Py.strip_ws v).
Proof.
  intros Hhere Hfirst.
  destruct (extract_mapping_reference (pre ++ rest)) as [r|] eqn:He.
  - destruct (extract_some _ _ He) as (pre0 & rest0 & v0 & E & Hv & -> & Hnone).
    f_equal.
    assert (L : String.length pre0 = String.length pre).
    { destruct (Nat.lt_trichotomy (String.length pre0) (String.length pre)) as [L|[L|L]].
      - exfalso. destruct (Hfirst pre0 rest0 v0 E L) as [N1 N2].
        destruct Hv as [Hv|[Hv _]]; [exact (N1 Hv) | exact (N2 Hv)].
      - exact L.
      - exfalso. destruct (Hnone pre rest v eq_refl L) as [N1 _]. exact (N1 Hhere). }
    symmetry in E. destruct (append_split_eq _ _ _ _ E L) as [-> ->].
    destruct Hhere as (post & Er & _ & Hd & Hend).
    destruct Hv as [(post0 & E0 & _ & Hd0 & Hend0)|[(ws & post0 & E0 & _) _]].
    + rewrite Er in E0. apply append_inv_head in E0.
      now rewrite (line_value_unique _ _ _ _ E0 Hd Hd0 Hend Hend0).
    + rewrite Er in E0. simpl in E0. discriminate E0.
  - exfalso. destruct (extract_none _ He pre rest v eq_refl) as [N1 _]. exact (N1 Hhere).
Qed.

(** X16 (lines 64-71, 121-125): when the first mapping comment of a
    script is a line comment, the reference is its value up to the end of
    the line, trimmed, whatever comes on the lines after it; when that
    value is white space throughout the reference is the empty text, and
    an inline entry then prints its line and does nothing more. *)
Theorem first_line_comment_decides (pre rest v : string) :
  line_comment_at rest v ->
  no_comment_before (pre ++ rest) (String.length pre) ->
  extract_mapping_reference (pre ++ rest) = Some (Py.strip_ws v) /\
  (forallb_str Py.isspace v = true ->
   extract_mapping_reference (pre ++ rest) = Some "" /\
   forall w out_dir final_page_url st,
     inline_entry w out_dir final_page_url (pre ++ rest) st
     = (Ret tt, add_event (EvPrint "Inline script mapping: ") st)).
Proof.
  intros Hhere Hfirst.
  pose proof (extract_first_line_comment pre rest v Hhere Hfirst) as He.
  split; [exact He|]. intros Hsp.
  assert (Hs : Py.strip_ws v = "") by now apply strip_by_empty_iff.
  rewrite Hs in He. split; [exact He|].
  intros w out_dir page st. unfold inline_entry. rewrite He. reflexivity.
Qed.

Lemma later_comments_are_ignored :
  extract_mapping_reference
    (("var a;" ++ newline)
       ++ "//# sourceMappingURL=" ++ "first.map" ++ (newline ++ "//# sourceMappingURL=second.map"))
  = Some (Py.strip_ws "first.map").
Proof.
  apply (first_line_comment_decides ("var a;" ++ newline)
           ("//# sourceMappingURL=" ++ "first.map"
              ++ (newline ++ "//# sourceMappingURL=second.map"))
           "first.map").
  - exists (newline ++ "//# sourceMappingURL=second.map").
    repeat split; [discriminate | right; now eexists].
  - apply no_hash_no_comment; reflexivity.
Defined.

(** * The script with calls that fail *)

(** ** Every step only adds events *)

Section FaultyEffects.
Context (f : Faults) (w : World).
Variable out_dir : string.

Lemma extends_os_makedirs_f (path : string) : extends (os_makedirs_f f path).
Proof.
  intros st. unfold os_makedirs_f.
  destruct (makedirs_outcome f (events st) path).
  - exists []. simpl. now rewrite app_nil_r.
  - now exists [EvMakedirs path].
Qed.

Lemma extends_write_file_f (full : string) (data : list ascii) :
  extends (write_file_f f full data).
Proof.
  intros st. unfold write_file_f.
  destruct (open_outcome f (events st) full).
  - exists []. simpl. now rewrite app_nil_r.
  - now exists [EvWrite full data].
Qed.

Lemma extends_urljoin_f (base ref : string) : extends (urljoin_f f w base ref).
Proof.
  unfold urljoin_f. destruct (urljoin_error f base ref);
    [apply extends_raise | apply extends_ret].
Qed.

Lemma extends_save_file_f (path content : string) :
  extends (save_file_f f w out_dir path content).
Proof.
  unfold save_file_f. apply extends_bind; [|intros _; apply extends_write_file_f].
  intros st. destruct (_ && _); [apply extends_os_makedirs_f | apply extends_ret].
Qed.


Lemma extends_handle_map_url_f (sm base : string) : extends (handle_map_url_f f w sm base).
Proof.
  unfold handle_map_url_f. destruct (Py.startswith sm "data:").
  - destruct (Py.split_once "," sm) as [[header b64]|]; [|apply extends_ret].
    destruct (Py.contains "base64" header).
    + apply extends_bind; [apply extends_decode_b64|]. intros raw.
      apply extends_bind; [apply extends_loads | intros; apply extends_ret].
    + apply extends_bind; [apply extends_loads | intros; apply extends_ret].
  - apply extends_bind; [apply extends_urljoin_f|]. intros full.
    apply extends_try.
    + apply extends_bind; [apply extends_get|]. intros r.
      apply extends_bind; [apply extends_raise_for_status|]. intros _.
      apply extends_bind; [apply extends_loads | intros; apply extends_ret].
    + intros e. apply extends_bind; [apply extends_emit | intros; apply extends_ret].
Qed.

Lemma extends_try_fetch_f (src base : string) :
  extends (try_fetch_source_by_url_f f w src base).
Proof.
  unfold try_fetch_source_by_url_f. apply extends_try; [|intros; apply extends_ret].
  apply extends_bind; [apply extends_urljoin_f|]. intros candidate.
  apply extends_bind; [apply extends_get|]. intros r.
  destruct (_ && _); apply extends_ret.
Qed.

Lemma extends_inline_source_f (page src_root : string) (contents : list (option string))
    (i : nat) (src : string) :
  extends (inline_source_f f w out_dir page src_root contents i src).
Proof.
  unfold inline_source_f. apply extends_bind.
  - destruct (embedded contents i); [apply extends_ret | apply extends_try_fetch_f].
  - intros [c|]; [|apply extends_ret].
    apply extends_bind; [apply extends_save_file_f | intros; apply extends_incr_saved].
Qed.

Lemma extends_remote_source_f (js sm src_root : string) (contents : list (option string))
    (i : nat) (src : string) :
  extends (remote_source_f f w out_dir js sm src_root contents i src).
Proof.
  unfold remote_source_f. apply extends_bind.
  - destruct (embedded contents i); [apply extends_ret|].
    apply extends_bind; [|intros; apply extends_try_fetch_f].
    destruct (negb _); [apply extends_urljoin_f | apply extends_ret].
  - intros [c|]; [|apply extends_emit].
    apply extends_bind; [apply extends_save_file_f|]. intros _.
    apply extends_bind; [apply extends_incr_saved | intros; apply extends_emit].
Qed.

Lemma extends_inline_entry_f (page js_text : string) :
  extends (inline_entry_f f w out_dir page js_text).
Proof.
  unfold inline_entry_f.
  apply extends_bind; [apply extends_emit|]. intros _.
  destruct (extract_mapping_reference js_text) as [[|c sm]|]; try apply extends_ret.
  apply extends_bind; [apply extends_handle_map_url_f|]. intros [[|d]|]; try apply extends_ret.
  apply extends_bind; [apply extends_incr_processed|]. intros _.
  apply extends_for_enumerate. intros. apply extends_inline_source_f.
Qed.

Lemma extends_remote_entry_f (js_url : string) : extends (remote_entry_f f w out_dir js_url).
Proof.
  unfold remote_entry_f. apply extends_bind.
  - apply extends_try.
    + apply extends_bind; [apply extends_get|]. intros r.
      apply extends_bind; [apply extends_raise_for_status | intros; apply extends_ret].
    + intros e. apply extends_bind; [apply extends_emit | intros; apply extends_ret].
  - intros [[js_text js_final_url]|]; [|apply extends_ret].
    destruct (extract_mapping_reference js_text) as [[|c sm]|]; try apply extends_emit.
    apply extends_bind; [apply extends_emit|]. intros _.
    apply extends_bind; [apply extends_handle_map_url_f|].
    intros [[|d]|]; try apply extends_emit.
    apply extends_bind; [apply extends_incr_processed|]. intros _.
    apply extends_for_enumerate. intros. apply extends_remote_source_f.
Qed.





End FaultyEffects.

Lemma run_f_unfold (f : Faults) (w : World) (argv : list string) :
  3 <= List.length argv ->
  run_f f w argv =
    match makedirs_outcome f [] (nth 2 argv "") with
    | Some msg => (Raise (OSError msg), initial)
    | None =>
        main_f f w (nth 2 argv "") (Py.rstrip "/" (nth 1 argv ""))
          (add_event (EvMakedirs (nth 2 argv "")) initial)
    end.
Proof.
  intros H. unfold run_f, script_f.
  destruct (Nat.ltb_spec (List.length argv) 3) as [L|L]; [lia|].
  unfold bind, os_makedirs_f. change (events initial) with (@nil event).
  destruct (makedirs_outcome f [] (nth 2 argv "")); reflexivity.
Qed.




(** ** The page, with calls that fail *)

(** [find_scripts_from_html] changes nothing; it returns the entries when
    every [src] joins and raises the [ValueError] of [urljoin] when one
    does not. *)
Lemma find_scripts_f_cases (f : Faults) (w : World) (base : string) (tags : list ScriptTag)
    (st : State) :
  (find_scripts_f f w tags base st = (Ret (map (entry_of_tag w base) tags), st) /\
   srcs_join f base tags) \/
  (exists msg tag src,
      find_scripts_f f w tags base st = (Raise (ValueError msg), st) /\
      In tag tags /\ tag_src tag = Some src /\ src <> "" /\
      urljoin_error f base src = Some msg).
Proof.
  induction tags as [|s tags IH]; simpl.
  - left. split; [reflexivity|]. intros tag src [].
  - unfold bind, urljoin_f, ret, raise, entry_of_tag.
    destruct (tag_src s) as [[|c src]|] eqn:Hs.
    + destruct IH as [[-> Hj]|(msg & tag & x & -> & Hin & Hx & Hne & He)].
      * left. split; [reflexivity|].
        intros t x [<-|Hin] Hx Hne; [|now apply (Hj t x)].
        rewrite Hs in Hx. injection Hx as <-. congruence.
      * right. exists msg, tag, x. repeat split; auto.
    + destruct (urljoin_error f base (String c src)) as [msg|] eqn:Hj0.
      * right. exists msg, s, (String c src). repeat split; auto. discriminate.
      * destruct IH as [[-> Hj]|(msg & tag & x & -> & Hin & Hx & Hne & He)].
        -- left. split; [reflexivity|].
           intros t x [<-|Hin] Hx Hne; [|now apply (Hj t x)].
           rewrite Hs in Hx. now injection Hx as <-.
        -- right. exists msg, tag, x. repeat split; auto.
    + destruct IH as [[-> Hj]|(msg & tag & x & -> & Hin & Hx & Hne & He)].
      * left. split; [reflexivity|].
        intros t x [<-|Hin] Hx Hne; [|now apply (Hj t x)].
        rewrite Hs in Hx. discriminate.
      * right. exists msg, tag, x. repeat split; auto.
Qed.

Lemma find_scripts_f_ok (f : Faults) (w : World) (base : string) (tags : list ScriptTag)
    (st : State) :
  srcs_join f base tags ->
  find_scripts_f f w tags base st = (Ret (map (entry_of_tag w base) tags), st).
Proof.
  intros Hj. destruct (find_scripts_f_cases f w base tags st)
    as [[H _]|(msg & tag & x & _ & Hin & Hx & Hne & He)]; [exact H|].
  rewrite (Hj tag x Hin Hx Hne) in He. discriminate.
Qed.

Lemma find_scripts_f_bad (f : Faults) (w : World) (base : string) (tags : list ScriptTag)
    (st : State) (tag : ScriptTag) (src msg : string) :
  In tag tags -> tag_src tag = Some src -> src <> "" ->
  urljoin_error f base src = Some msg ->
  exists msg', find_scripts_f f w tags base st = (Raise (ValueError msg'), st).
Proof.
  intros Hin Hx Hne He. destruct (find_scripts_f_cases f w base tags st)
    as [[_ Hj]|(msg' & _ & _ & H & _)]; [|now exists msg'].
  rewrite (Hj tag src Hin Hx Hne) in He. discriminate.
Qed.

Lemma main_f_unfold (f : Faults) (w : World) (out_dir page_url : string) (st : State) :
  main_f f w out_dir page_url st =
    match get w page_url st with
    | (Ret r, st1) =>
        match raise_for_status r st1 with
        | (Ret _, st2) =>
            match find_scripts_from_html_f f w (text r) (url r) st2 with
            | (Ret entries, st3) => main_loop_f f w out_dir (url r) entries st3
            | (Raise e, st3) => (Raise e, st3)
            end
        | (Raise e, st2) => (Raise e, st2)
        end
    | (Raise e, st1) => (Raise e, st1)
    end.
Proof.
  unfold main_f, get_text, bind.
  destruct (get w page_url st) as [[r|e] st1]; [|reflexivity].
  destruct (raise_for_status r st1) as [[u|e] st2]; reflexivity.
Qed.

(** X2 (lines 28-39, 51-61, 110-112): in a run where [os.makedirs] has
    made the output directory and the page has answered, a status from
    400 to 599 ends the run with the [HTTPError] of [raise_for_status]
    and nothing more done; with any other status, a [src] that [urljoin]
    rejects ends the run with a [ValueError] before any line is printed,
    and when every [src] joins the run goes on and prints the number of
    [<script>] elements next. *)
Theorem page_status_decides (f : Faults) (w : World) (argv : list string) (r : Response) :
  3 <= List.length argv ->
  makedirs_outcome f [] (nth 2 argv "") = None ->
  session_get w 0 (Py.rstrip "/" (nth 1 argv "")) = inr r ->
  let first_two := [EvMakedirs (nth 2 argv ""); EvGet (Py.rstrip "/" (nth 1 argv ""))] in
  (error_status (status_code r) = true ->
   (exists msg, fst (run_f f w argv) = Raise (HTTPError msg)) /\
   events (snd (run_f f w argv)) = first_two) /\
  (error_status (status_code r) = false ->
   (forall tag src msg,
       In tag (find_all_script w (text r)) -> tag_src tag = Some src -> src <> "" ->
       urljoin_error f (url r) src = Some msg ->
       (exists msg', fst (run_f f w argv) = Raise (ValueError msg')) /\
       events (snd (run_f f w argv)) = first_two) /\
   (srcs_join f (url r) (find_all_script w (text r)) ->
    exists rest,
      events (snd (run_f f w argv))
      = (first_two
           ++ EvPrint ("Found " ++ Py.str_of_nat (List.length (find_all_script w (text r)))
                         ++ " script entries on " ++ url r)
           :: rest)%list)).
Proof.
  intros Hlen Hmk Hget first_two.
  rewrite (run_f_unfold f w argv Hlen), Hmk, main_f_unfold. unfold get.
  change (List.length (requests (add_event _ initial))) with 0.
  rewrite Hget.
  set (st1 := add_event (EvGet _) _).
  destruct (raise_for_status_spec r st1) as (Hst & Hok & Herr).
  split.
  - intros E. destruct (Herr E) as [msg Hm].
    destruct (raise_for_status r st1) as [[u|e] st2]; cbn [fst snd] in *;
      [discriminate|]. subst st2. injection Hm as ->. split; [now exists msg|reflexivity].
  - intros E. specialize (Hok E).
    destruct (raise_for_status r st1) as [[u|e] st2]; cbn [fst snd] in *;
      [|discriminate]. subst st2. unfold find_scripts_from_html_f. split.
    + intros tag src msg Hin Hx Hne He.
      destruct (find_scripts_f_bad f w (url r) _ st1 tag src msg Hin Hx Hne He) as [msg' ->].
      split; [now exists msg' | reflexivity].
    + intros Hj. rewrite (find_scripts_f_ok f w (url r) _ st1 Hj).
      unfold main_loop_f. rewrite length_map.
      set (line := EvPrint _).
      unfold bind at 1. unfold print at 1, emit at 1.
      assert (Hrest : extends
        (for_each (map (entry_of_tag w (url r)) (find_all_script w (text r)))
           (process_entry_f f w (nth 2 argv "") (url r));;
         (fun st => print (summary_line (nth 2 argv "") st) st))).
      { apply extends_bind.
        - apply extends_for_each. intros [js_url|js_text];
            [apply extends_remote_entry_f | apply extends_inline_entry_f].
        - intros _. apply (extends_state (fun s => print _)). intros s. apply extends_emit. }
      destruct (Hrest (add_event line st1)) as [evs Hevs].
      exists evs. exact Hevs.
Qed.

Lemma page_503_stops_run :
  ((exists msg, fst (run_f no_faults down_world argv0) = Raise (HTTPError msg)) /\
   events (snd (run_f no_faults down_world argv0))
   = [EvMakedirs "out"; EvGet "http://site/index.html"]) /\
  ((exists msg,
       fst (run_f (rejecting ["//[x"]) bad_src_world argv0) = Raise (ValueError msg)) /\
   events (snd (run_f (rejecting ["//[x"]) bad_src_world argv0))
   = [EvMakedirs "out"; EvGet "http://site/index.html"]) /\
  (exists rest,
      events (snd (run_f no_faults bad_src_world argv0))
      = ([EvMakedirs "out"; EvGet "http://site/index.html"]
           ++ EvPrint "Found 1 script entries on http://site/index.html" :: rest)%list).
Proof.
  split; [|split].
  - apply (proj1 (page_status_decides no_faults down_world argv0
                    (response 503 "http://site/index.html" "busy")
                    ltac:(simpl; lia) eq_refl eq_refl)).
    reflexivity.
  - apply (proj1 (proj2 (page_status_decides (rejecting ["//[x"]) bad_src_world argv0
                           (ok_response "http://site/index.html" "<html>")
                           ltac:(simpl; lia) eq_refl eq_refl) eq_refl)
             (script_tag "//[x") "//[x" "Invalid IPv6 URL").
    + simpl. now left.
    + reflexivity.
    + discriminate.
    + reflexivity.
  - apply (proj2 (proj2 (page_status_decides no_faults bad_src_world argv0
                           (ok_response "http://site/index.html" "<html>")
                           ltac:(simpl; lia) eq_refl eq_refl) eq_refl)).
    intros tag src _ _ _. reflexivity.
Defined.

(** ** Loading a map, with [urljoin] that fails *)

(** X6 (lines 87-96): for a reference that is not a [data:] URI,
    [handle_map_url] raises the [ValueError] of [urljoin], with nothing
    done, when the reference does not join with the base: line 89 stands
    before the [try].  When it joins, [handle_map_url] does not raise and
    writes no file; it returns the parsed map exactly when the request
    succeeds, the status is not from 400 to 599 and the body parses, and
    otherwise returns [None] after printing one line that names the URL
    it tried. *)
Theorem handle_map_url_remote (f : Faults) (w : World) (sm base : string) (st : State) :
  Py.startswith sm "data:" = false ->
  (forall msg,
      urljoin_error f base sm = Some msg ->
      handle_map_url_f f w sm base st = (Raise (ValueError msg), st)) /\
  (urljoin_error f base sm = None ->
   let full := urljoin w base sm in
   let out := handle_map_url_f f w sm base st in
   exists res,
     fst out = Ret res /\ writes (snd out) = writes st /\
     (forall j, res = Some j <->
                exists r, session_get w (List.length (requests st)) full = inr r /\
                          error_status (status_code r) = false /\
                          json_loads w (text r) = inr j) /\
     match res with
     | Some _ => stdout (snd out) = stdout st
     | None =>
         exists msg,
           stdout (snd out)
           = (stdout st
                ++ [("Failed to fetch/parse map at " ++ full ++ ": " ++ msg)%string])%list
     end).
Proof.
  intros Hd. split.
  - intros msg He. unfold handle_map_url_f, bind, urljoin_f. now rewrite Hd, He.
  - intros He.
    assert (Heq : handle_map_url_f f w sm base st = handle_map_url w sm base st).
    { unfold handle_map_url_f, handle_map_url, bind at 1, urljoin_f. now rewrite Hd, He. }
    cbv zeta. rewrite Heq. exact (handle_map_url_joined w sm base st Hd).
Qed.

Lemma map_reference_that_does_not_join :
  handle_map_url_f (rejecting ["//[x"]) broken_map_world "//[x" "http://site/js/app.js" initial
    = (Raise (ValueError "Invalid IPv6 URL"), initial) /\
  exists res,
    fst (handle_map_url_f (rejecting ["//[x"]) broken_map_world "app.js.map"
           "http://site/js/app.js" initial) = Ret res.
Proof.
  split.
  - apply (proj1 (handle_map_url_remote (rejecting ["//[x"]) broken_map_world "//[x"
                    "http://site/js/app.js" initial eq_refl)).
    reflexivity.
  - destruct (proj2 (handle_map_url_remote (rejecting ["//[x"]) broken_map_world "app.js.map"
                      "http://site/js/app.js" initial eq_refl) eq_refl)
      as (res & Hres & _).
    now exists res.
Defined.

(** ** The per-source loops, with calls that fail *)

Section FaultyRounds.
Context (f : Faults) (w : World).
Variable out_dir : string.

Lemma try_fetch_f_spec (src base : string) (st : State) :
  try_fetch_source_by_url_f f w src base st =
    match urljoin_error f base src with
    | Some _ => (Ret None, st)
    | None =>
        (Ret (fetch_outcome
                (session_get w (List.length (requests st)) (urljoin w base src))),
         add_event (EvGet (urljoin w base src)) st)
    end.
Proof.
  unfold try_fetch_source_by_url_f, try_except, bind, urljoin_f, get, fetch_outcome, ret, raise.
  destruct (urljoin_error f base src); [reflexivity|].
  destruct (session_get w _ _) as [msg|r]; simpl; [reflexivity|].
  destruct ((status_code r =? 200)%nat && Py.truthy (Py.strip_ws (text r))); reflexivity.
Qed.

(** A save that does not raise does what [save_file] does. *)
Lemma save_file_f_ret (path content : string) (st : State) :
  fst (save_file_f f w out_dir path content st) = Ret tt ->
  save_file_f f w out_dir path content st = save_file w out_dir path content st.
Proof.
  unfold save_file_f, save_file, bind, os_makedirs_f, write_file_f, ret.
  destruct (Py.truthy _ && negb (path_exists w (events st) _)).
  - destruct (makedirs_outcome f (events st) _); [discriminate|].
    destruct (os_makedirs _ st) as [[u|e] st1]; [|discriminate].
    destruct (open_outcome f (events st1) _); [discriminate | reflexivity].
  - destruct (open_outcome f (events st) _); [discriminate | reflexivity].
Qed.

Lemma save_counted_f_ret (path content : string) (st : State) :
  fst (bind (save_file_f f w out_dir path content) (fun _ => incr_saved_files) st) = Ret tt ->
  bind (save_file_f f w out_dir path content) (fun _ => incr_saved_files) st
  = (Ret tt, grow st (save_events w out_dir path content (events st))).
Proof.
  intros H. rewrite <- save_counted_spec. unfold bind in *.
  destruct (save_file_f f w out_dir path content st) as [[u|e] st1] eqn:Hs; [|discriminate].
  rewrite <- (save_file_f_ret path content st), Hs; [reflexivity|].
  rewrite Hs. now destruct u.
Qed.

Lemma save_logged_f_ret (path content line : string) (st : State) :
  fst (bind (save_file_f f w out_dir path content)
         (fun _ => bind incr_saved_files (fun _ => print line)) st) = Ret tt ->
  bind (save_file_f f w out_dir path content)
    (fun _ => bind incr_saved_files (fun _ => print line)) st
  = (Ret tt, grow st (save_events w out_dir path content (events st) ++ [EvPrint line])).
Proof.
  intros H. rewrite <- save_logged_spec. unfold bind in *.
  destruct (save_file_f f w out_dir path content st) as [[u|e] st1] eqn:Hs; [|discriminate].
  rewrite <- (save_file_f_ret path content st), Hs; [reflexivity|].
  rewrite Hs. now destruct u.
Qed.

Lemma inline_source_f_unfold (final_page_url src_root : string)
    (contents : list (option string)) (i : nat) (src : string) (st : State) :
  inline_source_f f w out_dir final_page_url src_root contents i src st =
    let saved c :=
      bind (save_file_f f w out_dir (inline_filename src src_root) c)
        (fun _ => incr_saved_files) in
    match embedded contents i with
    | Some c => saved c st
    | None =>
        match urljoin_error f final_page_url src with
        | Some _ => (Ret tt, st)
        | None =>
            let target := urljoin w final_page_url src in
            match fetch_outcome (session_get w (List.length (requests st)) target) with
            | Some c => saved c (add_event (EvGet target) st)
            | None => (Ret tt, add_event (EvGet target) st)
            end
        end
    end.
Proof.
  unfold inline_source_f. cbv zeta.
  destruct (embedded contents i) as [c|]; [reflexivity|].
  unfold bind at 1. rewrite try_fetch_f_spec.
  destruct (urljoin_error f final_page_url src); [reflexivity|].
  destruct (fetch_outcome _); reflexivity.
Qed.

Lemma remote_source_f_unfold (js_final_url sm src_root : string)
    (contents : list (option string)) (i : nat) (src : string) (st : State) :
  remote_source_f f w out_dir js_final_url sm src_root contents i src st =
    let cleaned := sanitize src src_root in
    let saved c :=
      bind (save_file_f f w out_dir cleaned c)
        (fun _ => bind incr_saved_files (fun _ => print (" - Saved: " ++ cleaned))) in
    let lost := print (" - Could not obtain content for source: " ++ src) in
    match embedded contents i with
    | Some c => saved c st
    | None =>
        match (if negb (Py.startswith sm "data:")
               then urljoin_error f js_final_url sm else None) with
        | Some msg => (Raise (ValueError msg), st)
        | None =>
            let base := map_url_guess w js_final_url sm in
            match urljoin_error f base src with
            | Some _ => lost st
            | None =>
                let target := urljoin w base src in
                match fetch_outcome (session_get w (List.length (requests st)) target) with
                | Some c => saved c (add_event (EvGet target) st)
                | None => lost (add_event (EvGet target) st)
                end
            end
        end
    end.
Proof.
  unfold remote_source_f, map_url_guess. cbv zeta.
  destruct (embedded contents i) as [c|]; [reflexivity|].
  unfold bind at 1. unfold bind at 1. unfold urljoin_f.
  destruct (negb (Py.startswith sm "data:")).
  - destruct (urljoin_error f js_final_url sm); [reflexivity|].
    unfold ret at 1. rewrite try_fetch_f_spec.
    destruct (urljoin_error f _ src); [reflexivity|].
    destruct (fetch_outcome _); reflexivity.
  - unfold ret at 1. rewrite try_fetch_f_spec.
    destruct (urljoin_error f _ src); [reflexivity|].
    destruct (fetch_outcome _); reflexivity.
Qed.

(** One round of the inline branch's loop that does not raise. *)
Lemma inline_source_f_round (final_page_url src_root : string)
    (contents : list (option string)) (i : nat) (src : string) (st : State) :
  fst (inline_source_f f w out_dir final_page_url src_root contents i src st) = Ret tt ->
  exists evs,
    snd (inline_source_f f w out_dir final_page_url src_root contents i src st)
      = grow st evs /\
    source_round_f f w (PosixPath.join out_dir (inline_filename src src_root))
      final_page_url [] [] contents i src evs.
Proof.
  rewrite inline_source_f_unfold. cbv zeta.
  unfold source_round_f, joined_target.
  destruct (embedded contents i) as [c|] eqn:He.
  - intros H. rewrite (save_counted_f_ret _ _ _ H). eexists. split; [reflexivity|].
    exists (Some c). round_events. repeat split; reflexivity.
  - destruct (urljoin_error f final_page_url src) as [msg|].
    + intros _. exists []. split; [now rewrite grow_nil|].
      exists None. repeat split; try reflexivity. now left.
    + set (target := urljoin w final_page_url src).
      set (n := List.length (requests st)).
      destruct (fetch_outcome (session_get w n target)) as [c|] eqn:Hf.
      * intros H. rewrite (save_counted_f_ret _ _ _ H).
        exists (EvGet target ::
                save_events w out_dir (inline_filename src src_root) c
                  (events (add_event (EvGet target) st))).
        split; [cbn [snd]; apply (f_equal snd (x := (Ret tt, _)) (y := (Ret tt, _)));
                same_state|].
        exists (Some c). round_events.
        repeat split; try reflexivity. right. exists n. now rewrite Hf.
      * intros _. exists [EvGet target]. split; [reflexivity|].
        exists None. repeat split; try reflexivity. now left.
Qed.

(** One round of the remote branch's loop that does not raise. *)
Lemma remote_source_f_round (js_final_url sm src_root : string)
    (contents : list (option string)) (i : nat) (src : string) (st : State) :
  fst (remote_source_f f w out_dir js_final_url sm src_root contents i src st) = Ret tt ->
  exists evs,
    snd (remote_source_f f w out_dir js_final_url sm src_root contents i src st)
      = grow st evs /\
    source_round_f f w (PosixPath.join out_dir (sanitize src src_root))
      (map_url_guess w js_final_url sm)
      [" - Saved: " ++ sanitize src src_root]
      [" - Could not obtain content for source: " ++ src] contents i src evs.
Proof.
  rewrite remote_source_f_unfold. cbv zeta.
  unfold source_round_f, joined_target.
  destruct (embedded contents i) as [c|] eqn:He.
  - intros H. rewrite (save_logged_f_ret _ _ _ _ H). eexists. split; [reflexivity|].
    exists (Some c). round_events. repeat split; reflexivity.
  - destruct (if negb (Py.startswith sm "data:") then urljoin_error f js_final_url sm
              else None) as [msg|]; [discriminate|].
    set (base := map_url_guess w js_final_url sm).
    destruct (urljoin_error f base src) as [msg|].
    + intros _. exists [EvPrint (" - Could not obtain content for source: " ++ src)].
      split; [reflexivity|].
      exists None. repeat split; try reflexivity. now left.
    + set (target := urljoin w base src).
      set (n := List.length (requests st)).
      destruct (fetch_outcome (session_get w n target)) as [c|] eqn:Hf.
      * intros H. rewrite (save_logged_f_ret _ _ _ _ H).
        exists (EvGet target ::
                save_events w out_dir (sanitize src src_root) c
                  (events (add_event (EvGet target) st))
                ++ [EvPrint (" - Saved: " ++ sanitize src src_root)])%list.
        split; [cbn [snd]; apply (f_equal snd (x := (Ret tt, _)) (y := (Ret tt, _)));
                same_state|].
        exists (Some c). round_events.
        repeat split; try reflexivity. right. exists n. now rewrite Hf.
      * intros _.
        exists [EvGet target; EvPrint (" - Could not obtain content for source: " ++ src)].
        split; [unfold print, emit; cbn [snd];
                apply (f_equal snd (x := (Ret tt, _)) (y := (Ret tt, _))); same_state|].
        exists None. repeat split; try reflexivity. now left.
Qed.

End FaultyRounds.

Section FaultyLoops.
Context (f : Faults) (w : World).
Variables (path : string -> string) (base : string).
Variables (log_ok log_fail : string -> list string).
Variable contents : list (option string).

Let round_f (i : nat) (src : string) (evs : list event) : Prop :=
  source_round_f f w (path src) base (log_ok src) (log_fail src) contents i src evs.

(** Without embedded content the loop requests every source that joins
    with the base, in the order of the sources. *)
Lemma rounds_f_none_embedded (i : nat) (srcs : list string) (evs : list event) :
  rounds round_f i srcs evs ->
  contents = [] ->
  ev_requests evs = flat_map (joined_target f w base) srcs.
Proof.
  intros H Hnil.
  induction H as [i|i src l e1 e2 (chosen & Hc & _) _ IH]; [reflexivity|].
  rewrite Hnil in Hc. unfold embedded in Hc.
  replace (nth_error [] i) with (@None (option string)) in Hc by now destruct i.
  destruct Hc as [Hr _]. rewrite ev_requests_app, Hr, IH. reflexivity.
Qed.

(** When every source has embedded content the loop requests nothing and
    writes one file for each source, in the order of the sources. *)
Lemma rounds_f_all_embedded (i : nat) (srcs : list string) (evs : list event) :
  rounds round_f i srcs evs ->
  (forall k src, nth_error srcs k = Some src ->
                 exists c, embedded contents (i + k) = Some c) ->
  ev_requests evs = [] /\ map fst (ev_writes evs) = map path srcs.
Proof.
  induction 1 as [i|i src l e1 e2 (chosen & Hc & Hw & _) _ IH]; intros Hall.
  - now split.
  - destruct (Hall 0 src eq_refl) as [c Hemb]. rewrite Nat.add_0_r in Hemb.
    rewrite Hemb in Hc. destruct Hc as [-> Hr].
    destruct IH as [IHr IHw].
    { intros k s Hk. destruct (Hall (S k) s Hk) as [c' Hc'].
      exists c'. now rewrite Nat.add_succ_r in Hc'. }
    rewrite ev_requests_app, ev_writes_app, map_app, Hr, IHr, Hw, IHw. now split.
Qed.

(** A loop that stops has requested the sources up to some point. *)
Lemma rounds_f_stopped_requests (i k : nat) (srcs : list string) (src : string)
    (evs1 evs2 : list event) :
  rounds round_f i (firstn k srcs) evs1 ->
  nth_error srcs k = Some src ->
  failed_round_f f w base contents (i + k) src evs2 ->
  contents = [] ->
  exists k',
    ev_requests (evs1 ++ evs2) = flat_map (joined_target f w base) (firstn k' srcs).
Proof.
  intros Hr Hk (_ & _ & Hq) Hnil.
  rewrite ev_requests_app, (rounds_f_none_embedded _ _ _ Hr Hnil).
  destruct Hq as [-> | [_ ->]].
  - exists k. now rewrite app_nil_r.
  - exists (S k). clear Hr. revert k Hk.
    induction srcs as [|x l IH]; intros [|k] Hk; try discriminate; simpl in *.
    + injection Hk as ->. now rewrite app_nil_r.
    + now rewrite <- app_assoc, (IH k Hk).
Qed.

End FaultyLoops.

Lemma rounds_f_lines (f : Faults) (w : World) (path : string -> string) (base : string)
    (a b : string -> string) (contents : list (option string))
    (i : nat) (srcs : list string) (evs : list event) :
  rounds (fun i src => source_round_f f w (path src) base [a src] [b src] contents i src)
    i srcs evs ->
  Forall2 (fun src line => line = a src \/ line = b src) srcs (ev_stdout evs).
Proof.
  induction 1 as [i|i src l e1 e2 (chosen & _ & _ & Hs) _ IH]; [constructor|].
  rewrite ev_stdout_app, Hs. destruct chosen; simpl; constructor; auto.
Qed.

(** ** Loops that stop with an exception *)

(** A loop either runs through the whole list or stops in the round that
    raises. *)
Lemma for_enumerate_outcome {A : Type} (Q R : nat -> A -> list event -> Prop)
    (body : nat -> A -> M unit) :
  (forall i x st, fst (body i x st) = Ret tt ->
                  exists evs, snd (body i x st) = grow st evs /\ Q i x evs) ->
  (forall i x st e, fst (body i x st) = Raise e ->
                    exists evs, events (snd (body i x st)) = (events st ++ evs)%list /\
                                R i x evs) ->
  forall l i st,
    exists k evs1 evs2,
      rounds Q i (firstn k l) evs1 /\
      events (snd (for_enumerate i l body st)) = (events st ++ evs1 ++ evs2)%list /\
      ((fst (for_enumerate i l body st) = Ret tt /\ k = List.length l /\ evs2 = []) \/
       (exists e x, fst (for_enumerate i l body st) = Raise e /\
                    nth_error l k = Some x /\ R (i + k) x evs2)).
Proof.
  intros Hret Hraise. induction l as [|x l IH]; intros i st; simpl.
  - exists 0, [], []. split; [constructor|]. split; [now rewrite app_nil_r|]. now left.
  - unfold bind. destruct (body i x st) as [[[]|e] st1] eqn:Hb.
    + destruct (Hret i x st) as (e1 & H1 & Q1); [now rewrite Hb|].
      rewrite Hb in H1. cbn [snd] in H1. subst st1.
      destruct (IH (S i) (grow st e1)) as (k & evs1 & evs2 & Hr & Hev & Hout).
      exists (S k), (e1 ++ evs1)%list, evs2. split; [now constructor|]. split.
      * rewrite Hev. unfold grow. cbn [events]. now rewrite <- !app_assoc.
      * destruct Hout as [(Hf & -> & ->) | (e & y & Hf & Hk & HR)]; [now left|].
        right. exists e, y. rewrite Nat.add_succ_r. now repeat split.
    + destruct (Hraise i x st e) as (evs & Hev & HR); [now rewrite Hb|].
      rewrite Hb in Hev. cbn [snd] in Hev.
      exists 0, [], evs. split; [constructor|]. split; [exact Hev|].
      right. exists e, x. rewrite Nat.add_0_r. now repeat split.
Qed.

Section FaultyStops.
Context (f : Faults) (w : World).
Variable out_dir : string.

(** A [save_file] that raises has written nothing. *)
Lemma save_file_f_raise (path content : string) (st : State) (e : exn) :
  fst (save_file_f f w out_dir path content st) = Raise e ->
  exists evs,
    events (snd (save_file_f f w out_dir path content st)) = (events st ++ evs)%list /\
    ev_stdout evs = [] /\ ev_writes evs = [] /\ ev_requests evs = [].
Proof.
  unfold save_file_f, bind, os_makedirs_f, write_file_f, os_makedirs, emit, ret.
  destruct (Py.truthy _ && negb (path_exists w (events st) _)).
  - destruct (makedirs_outcome f (events st) _).
    + intros _. exists []. now rewrite app_nil_r.
    + cbn [fst snd]. destruct (open_outcome f _ _); [|discriminate].
      intros _. eexists. split; [reflexivity|]. now repeat split.
  - destruct (open_outcome f _ _); [|discriminate].
    intros _. exists []. now rewrite app_nil_r.
Qed.

(** What follows a [save_file] that raises is not run. *)
Lemma save_then_raise (path content : string) (k : unit -> M unit) (st : State) (e : exn) :
  (forall u st', exists st'', k u st' = (Ret tt, st'')) ->
  fst (bind (save_file_f f w out_dir path content) k st) = Raise e ->
  fst (save_file_f f w out_dir path content st) = Raise e /\
  snd (bind (save_file_f f w out_dir path content) k st)
  = snd (save_file_f f w out_dir path content st).
Proof.
  intros Hk. unfold bind.
  destruct (save_file_f f w out_dir path content st) as [[u|e'] st1]; cbn [fst snd].
  - destruct (Hk u st1) as [st2 ->]. discriminate.
  - now split.
Qed.

Lemma counted_returns (u : unit) (st : State) :
  exists st', incr_saved_files st = (Ret tt, st').
Proof. unfold incr_saved_files. eauto. Qed.

Lemma logged_returns (line : string) (u : unit) (st : State) :
  exists st', bind incr_saved_files (fun _ => print line) st = (Ret tt, st').
Proof. unfold bind, incr_saved_files, print, emit. eauto. Qed.

Lemma saved_raise (path content : string) (k : unit -> M unit) (st : State) (e : exn) :
  (forall u st', exists st'', k u st' = (Ret tt, st'')) ->
  fst (bind (save_file_f f w out_dir path content) k st) = Raise e ->
  exists evs,
    events (snd (bind (save_file_f f w out_dir path content) k st))
    = (events st ++ evs)%list /\
    ev_stdout evs = [] /\ ev_writes evs = [] /\ ev_requests evs = [].
Proof.
  intros Hk H. destruct (save_then_raise path content k st e Hk H) as [H1 ->].
  exact (save_file_f_raise path content st e H1).
Qed.

(** The round of the inline branch's loop that raises. *)
Lemma inline_source_f_raise (final_page_url src_root : string)
    (contents : list (option string)) (i : nat) (src : string) (st : State) (e : exn) :
  fst (inline_source_f f w out_dir final_page_url src_root contents i src st) = Raise e ->
  exists evs,
    events (snd (inline_source_f f w out_dir final_page_url src_root contents i src st))
    = (events st ++ evs)%list /\
    failed_round_f f w final_page_url contents i src evs.
Proof.
  rewrite inline_source_f_unfold. cbv zeta. unfold failed_round_f, joined_target.
  destruct (embedded contents i) as [c|] eqn:He.
  - intros H.
    destruct (saved_raise _ _ (fun _ => incr_saved_files) _ _
                (fun u st' => counted_returns u st') H)
      as (evs & Hev & Hs & Hw & Hq).
    exists evs. repeat split; auto.
  - destruct (urljoin_error f final_page_url src) as [msg|]; [discriminate|].
    destruct (fetch_outcome _) as [c|]; [|discriminate].
    intros H.
    destruct (saved_raise _ _ (fun _ => incr_saved_files) _ _
                (fun u st' => counted_returns u st') H)
      as (evs & Hev & Hs & Hw & Hq).
    exists (EvGet (urljoin w final_page_url src) :: evs). split.
    + rewrite Hev. unfold add_event. cbn [events]. now rewrite <- app_assoc.
    + round_events. repeat split; auto. right. split; [reflexivity|].
      now rewrite Hq.
Qed.

(** The round of the remote branch's loop that raises. *)
Lemma remote_source_f_raise (js_final_url sm src_root : string)
    (contents : list (option string)) (i : nat) (src : string) (st : State) (e : exn) :
  fst (remote_source_f f w out_dir js_final_url sm src_root contents i src st) = Raise e ->
  exists evs,
    events (snd (remote_source_f f w out_dir js_final_url sm src_root contents i src st))
    = (events st ++ evs)%list /\
    failed_round_f f w (map_url_guess w js_final_url sm) contents i src evs.
Proof.
  rewrite remote_source_f_unfold. cbv zeta. unfold failed_round_f, joined_target.
  destruct (embedded contents i) as [c|] eqn:He.
  - intros H.
    destruct (saved_raise _ _
                (fun _ => bind incr_saved_files
                            (fun _ => print (" - Saved: " ++ sanitize src src_root))) _ _
                (fun u st' => logged_returns _ u st') H)
      as (evs & Hev & Hs & Hw & Hq).
    exists evs. repeat split; auto.
  - destruct (if negb (Py.startswith sm "data:") then urljoin_error f js_final_url sm
              else None) as [msg|].
    { intros _. exists []. rewrite app_nil_r. repeat split; auto. }
    destruct (urljoin_error f (map_url_guess w js_final_url sm) src) as [msg|];
      [discriminate|].
    destruct (fetch_outcome _) as [c|]; [|discriminate].
    intros H.
    destruct (saved_raise _ _
                (fun _ => bind incr_saved_files
                            (fun _ => print (" - Saved: " ++ sanitize src src_root))) _ _
                (fun u st' => logged_returns _ u st') H)
      as (evs & Hev & Hs & Hw & Hq).
    exists (EvGet (urljoin w (map_url_guess w js_final_url sm) src) :: evs). split.
    + rewrite Hev. unfold add_event. cbn [events]. now rewrite <- app_assoc.
    + round_events. repeat split; auto. right. split; [reflexivity|].
      now rewrite Hq.
Qed.

(** The remote branch's loop, whole or stopped. *)
Lemma remote_loop_outcome (js_final_url sm src_root : string)
    (contents : list (option string)) (srcs : list string) (st : State) :
  let r := for_enumerate 0 srcs
             (remote_source_f f w out_dir js_final_url sm src_root contents) st in
  exists k evs1 evs2,
    rounds (fun i src =>
              source_round_f f w (PosixPath.join out_dir (sanitize src src_root))
                (map_url_guess w js_final_url sm)
                [" - Saved: " ++ sanitize src src_root]
                [" - Could not obtain content for source: " ++ src] contents i src)
      0 (firstn k srcs) evs1 /\
    events (snd r) = (events st ++ evs1 ++ evs2)%list /\
    ((fst r = Ret tt /\ k = List.length srcs /\ evs2 = []) \/
     (exists e x, fst r = Raise e /\ nth_error srcs k = Some x /\
                  failed_round_f f w (map_url_guess w js_final_url sm) contents k x evs2)).
Proof.
  exact (for_enumerate_outcome
           (fun i src =>
              source_round_f f w (PosixPath.join out_dir (sanitize src src_root))
                (map_url_guess w js_final_url sm)
                [" - Saved: " ++ sanitize src src_root]
                [" - Could not obtain content for source: " ++ src] contents i src)
           (failed_round_f f w (map_url_guess w js_final_url sm) contents)
           (remote_source_f f w out_dir js_final_url sm src_root contents)
           (remote_source_f_round f w out_dir js_final_url sm src_root contents)
           (remote_source_f_raise js_final_url sm src_root contents)
           srcs 0 st).
Qed.

(** The inline branch's loop, whole or stopped. *)
Lemma inline_loop_outcome (final_page_url src_root : string)
    (contents : list (option string)) (srcs : list string) (st : State) :
  let r := for_enumerate 0 srcs
             (inline_source_f f w out_dir final_page_url src_root contents) st in
  exists k evs1 evs2,
    rounds (fun i src =>
              source_round_f f w (PosixPath.join out_dir (inline_filename src src_root))
                final_page_url [] [] contents i src)
      0 (firstn k srcs) evs1 /\
    events (snd r) = (events st ++ evs1 ++ evs2)%list /\
    ((fst r = Ret tt /\ k = List.length srcs /\ evs2 = []) \/
     (exists e x, fst r = Raise e /\ nth_error srcs k = Some x /\
                  failed_round_f f w final_page_url contents k x evs2)).
Proof.
  exact (for_enumerate_outcome
           (fun i src =>
              source_round_f f w (PosixPath.join out_dir (inline_filename src src_root))
                final_page_url [] [] contents i src)
           (failed_round_f f w final_page_url contents)
           (inline_source_f f w out_dir final_page_url src_root contents)
           (inline_source_f_round f w out_dir final_page_url src_root contents)
           (inline_source_f_raise final_page_url src_root contents)
           srcs 0 st).
Qed.

End FaultyStops.

Lemma nth_error_firstn_some {A : Type} (k j : nat) (l : list A) (x : A) :
  nth_error (firstn k l) j = Some x -> nth_error l j = Some x.
Proof.
  revert k j. induction l as [|y l IH]; intros [|k] [|j]; simpl; try discriminate; auto.
  apply IH.
Qed.

Lemma nth_error_some_lt {A : Type} (k : nat) (l : list A) (x : A) :
  nth_error l k = Some x -> k < List.length l.
Proof.
  revert k. induction l as [|y l IH]; intros [|k]; simpl; try discriminate; [lia|].
  intros H. apply IH in H. lia.
Qed.

(** ** Maps without content, maps with all of it *)

Section PerSourceLoops.
Context (f : Faults) (w : World).
Variables (path : string -> string) (base : string).
Variables (log_ok log_fail : string -> list string).
Variable contents : list (option string).
Variable srcs : list string.
Variables (fst_r : Result unit) (evs_r evs_st : list event).

Let round_f (i : nat) (src : string) (evs : list event) : Prop :=
  source_round_f f w (path src) base (log_ok src) (log_fail src) contents i src evs.

Hypothesis outcome :
  exists k evs1 evs2,
    rounds round_f 0 (firstn k srcs) evs1 /\
    evs_r = (evs_st ++ evs1 ++ evs2)%list /\
    ((fst_r = Ret tt /\ k = List.length srcs /\ evs2 = []) \/
     (exists e x, fst_r = Raise e /\ nth_error srcs k = Some x /\
                  failed_round_f f w base contents k x evs2)).

Lemma loop_without_content :
  contents = [] ->
  (fst_r = Ret tt ->
   ev_requests evs_r = (ev_requests evs_st ++ flat_map (joined_target f w base) srcs)%list) /\
  (exists k,
     ev_requests evs_r
     = (ev_requests evs_st ++ flat_map (joined_target f w base) (firstn k srcs))%list).
Proof.
  intros Hnil. destruct outcome as (k & evs1 & evs2 & Hr & -> & Hout).
  rewrite ev_requests_app.
  destruct Hout as [(Hf & -> & ->) | (e & x & Hf & Hk & HR)].
  - rewrite app_nil_r, (rounds_f_none_embedded f w path base log_ok log_fail contents
                          _ _ _ Hr Hnil).
    split; [now rewrite firstn_all | now exists (List.length srcs)].
  - split; [congruence|].
    destruct (rounds_f_stopped_requests f w path base log_ok log_fail contents
                0 k srcs x evs1 evs2 Hr Hk HR Hnil) as [k' ->].
    now exists k'.
Qed.

Lemma loop_with_all_content :
  (forall k src, nth_error srcs k = Some src ->
                 exists c, nth_error contents k = Some (Some c)) ->
  ev_requests evs_r = ev_requests evs_st /\
  exists k new,
    ev_writes evs_r = (ev_writes evs_st ++ new)%list /\
    map fst new = map path (firstn k srcs) /\
    (fst_r = Ret tt -> k = List.length srcs).
Proof.
  intros Hall. destruct outcome as (k & evs1 & evs2 & Hr & -> & Hout).
  destruct (rounds_f_all_embedded f w path base log_ok log_fail contents
              0 (firstn k srcs) evs1 Hr) as [Hq Hw].
  { intros j src Hj. apply nth_error_firstn_some in Hj.
    destruct (Hall j src Hj) as [c Hc]. exists c. now apply embedded_nth. }
  rewrite !ev_requests_app, !ev_writes_app, Hq.
  destruct Hout as [(Hf & -> & ->) | (e & x & Hf & Hk & (_ & Hw2 & Hq2))].
  - split; [now rewrite !app_nil_r|].
    exists (List.length srcs), (ev_writes evs1). rewrite app_nil_r. now repeat split.
  - destruct Hq2 as [Hq2 | [Hnone _]].
    + rewrite Hq2, Hw2. split; [now rewrite !app_nil_r|].
      exists k, (ev_writes evs1). rewrite app_nil_r. repeat split; auto. congruence.
    + destruct (Hall k x Hk) as [c Hc]. apply embedded_nth in Hc. congruence.
Qed.

End PerSourceLoops.

(** X12 (lines 98-107, 130-146, 172-198): for a map without
    [sourcesContent], a per-source loop that ends without an exception
    has requested, in the order of [sources], every source that [urljoin]
    resolves against the base, once each, whatever the requests give; a
    source that [urljoin] rejects is passed over without a request (the
    call stands inside the [try] of lines 100-106).  A loop that ends
    with an exception ([save_file] stands outside any [try], and so does
    line 191) has done so for the sources up to some point.  For a map
    whose [sourcesContent] has a text for every source, a loop requests
    nothing and writes one file for each source in that order: for all of
    them when it ends without an exception, up to some point otherwise. *)
Theorem all_or_nothing_fetched (f : Faults) (w : World) (out_dir : string)
    (d : SourceMap) (st : State) :
  (sourcesContent d = [] ->
   (forall js_final_url sm,
       let r := for_enumerate 0 (sources d)
                  (remote_source_f f w out_dir js_final_url sm (sourceRoot d)
                     (sourcesContent d)) st in
       let targets := flat_map (joined_target f w (map_url_guess w js_final_url sm)) in
       (fst r = Ret tt -> requests (snd r) = (requests st ++ targets (sources d))%list) /\
       (exists k, requests (snd r) = (requests st ++ targets (firstn k (sources d)))%list)) /\
   (forall final_page_url,
       let r := for_enumerate 0 (sources d)
                  (inline_source_f f w out_dir final_page_url (sourceRoot d)
                     (sourcesContent d)) st in
       let targets := flat_map (joined_target f w final_page_url) in
       (fst r = Ret tt -> requests (snd r) = (requests st ++ targets (sources d))%list) /\
       (exists k, requests (snd r) = (requests st ++ targets (firstn k (sources d)))%list))) /\
  ((forall k src, nth_error (sources d) k = Some src ->
                  exists c, nth_error (sourcesContent d) k = Some (Some c)) ->
   (forall js_final_url sm,
       let r := for_enumerate 0 (sources d)
                  (remote_source_f f w out_dir js_final_url sm (sourceRoot d)
                     (sourcesContent d)) st in
       requests (snd r) = requests st /\
       exists k new,
         writes (snd r) = (writes st ++ new)%list /\
         map fst new
         = map (fun src => PosixPath.join out_dir (sanitize src (sourceRoot d)))
               (firstn k (sources d)) /\
         (fst r = Ret tt -> k = List.length (sources d))) /\
   (forall final_page_url,
       let r := for_enumerate 0 (sources d)
                  (inline_source_f f w out_dir final_page_url (sourceRoot d)
                     (sourcesContent d)) st in
       requests (snd r) = requests st /\
       exists k new,
         writes (snd r) = (writes st ++ new)%list /\
         map fst new
         = map (fun src => PosixPath.join out_dir (inline_filename src (sourceRoot d)))
               (firstn k (sources d)) /\
         (fst r = Ret tt -> k = List.length (sources d)))).
Proof.
  split.
  - intros Hnil. split.
    + intros js sm. cbv zeta. unfold requests.
      exact (loop_without_content f w
               (fun src => PosixPath.join out_dir (sanitize src (sourceRoot d)))
               (map_url_guess w js sm)
               (fun src => [" - Saved: " ++ sanitize src (sourceRoot d)])
               (fun src => [" - Could not obtain content for source: " ++ src])
               (sourcesContent d) (sources d) _ _ _
               (remote_loop_outcome f w out_dir js sm (sourceRoot d) (sourcesContent d)
                  (sources d) st) Hnil).
    + intros page. cbv zeta. unfold requests.
      exact (loop_without_content f w
               (fun src => PosixPath.join out_dir (inline_filename src (sourceRoot d)))
               page (fun _ => []) (fun _ => [])
               (sourcesContent d) (sources d) _ _ _
               (inline_loop_outcome f w out_dir page (sourceRoot d) (sourcesContent d)
                  (sources d) st) Hnil).
  - intros Hall. split.
    + intros js sm. cbv zeta. unfold requests, writes.
      exact (loop_with_all_content f w
               (fun src => PosixPath.join out_dir (sanitize src (sourceRoot d)))
               (map_url_guess w js sm)
               (fun src => [" - Saved: " ++ sanitize src (sourceRoot d)])
               (fun src => [" - Could not obtain content for source: " ++ src])
               (sourcesContent d) (sources d) _ _ _
               (remote_loop_outcome f w out_dir js sm (sourceRoot d) (sourcesContent d)
                  (sources d) st) Hall).
    + intros page. cbv zeta. unfold requests, writes.
      exact (loop_with_all_content f w
               (fun src => PosixPath.join out_dir (inline_filename src (sourceRoot d)))
               page (fun _ => []) (fun _ => [])
               (sourcesContent d) (sources d) _ _ _
               (inline_loop_outcome f w out_dir page (sourceRoot d) (sourcesContent d)
                  (sources d) st) Hall).
Qed.

Lemma map_without_content_is_fetched_in_order :
  let r := for_enumerate 0 ["a.js"; "//[x"; "b.js"]
             (inline_source_f (rejecting ["//[x"]) offline_world "out"
                "http://site/index.html" "" [])
             initial in
  fst r = Ret tt /\
  requests (snd r) = ["http://site/a.js"; "http://site/b.js"].
Proof.
  split; [reflexivity|].
  apply (proj1 (proj2 (proj1 (all_or_nothing_fetched (rejecting ["//[x"]) offline_world "out"
                                {| sourceRoot := ""; sources := ["a.js"; "//[x"; "b.js"];
                                   sourcesContent := [] |} initial) eq_refl)
                 "http://site/index.html")).
  reflexivity.
Defined.

(** ** What the remote branch reports *)

(** X13 (lines 177-198): the remote branch's loop prints one line for
    each source it gets through, in the order of the sources: the line of
    the saved file, with its cleaned path, or the line of the source it
    could not get, with the entry as it stands in the map.  A loop that
    ends without an exception gets through every source.  One that ends
    with an exception (of [save_file] at line 196 or of [urljoin] at
    line 191, which stand outside any [try]) has printed the lines of the
    sources before the one it failed on, and none for that one. *)
Theorem remote_loop_reports_each_source (f : Faults) (w : World) (out_dir : string)
    (d : SourceMap) (js_final_url sm : string) (st : State) :
  let r := for_enumerate 0 (sources d)
             (remote_source_f f w out_dir js_final_url sm (sourceRoot d)
                (sourcesContent d)) st in
  let reports :=
    Forall2 (fun src line =>
               line = " - Saved: " ++ sanitize src (sourceRoot d) \/
               line = " - Could not obtain content for source: " ++ src) in
  (fst r = Ret tt ->
   exists lines,
     stdout (snd r) = (stdout st ++ lines)%list /\ reports (sources d) lines) /\
  (forall e,
      fst r = Raise e ->
      exists k lines,
        k < List.length (sources d) /\
        stdout (snd r) = (stdout st ++ lines)%list /\
        reports (firstn k (sources d)) lines).
Proof.
  cbv zeta. unfold stdout.
  destruct (remote_loop_outcome f w out_dir js_final_url sm (sourceRoot d)
              (sourcesContent d) (sources d) st) as (k & evs1 & evs2 & Hr & Hev & Hout).
  cbv zeta in Hev, Hout. rewrite Hev, !ev_stdout_app.
  apply (rounds_f_lines f w
           (fun src => PosixPath.join out_dir (sanitize src (sourceRoot d)))
           (map_url_guess w js_final_url sm)
           (fun src => " - Saved: " ++ sanitize src (sourceRoot d))
           (fun src => " - Could not obtain content for source: " ++ src)) in Hr.
  destruct Hout as [(Hf & -> & ->) | (e & x & Hf & Hk & (Hs & _))].
  - split; [|intros e He; congruence].
    intros _. exists (ev_stdout evs1). rewrite app_nil_r. split; [reflexivity|].
    now rewrite firstn_all in Hr.
  - split; [intros He; congruence|].
    intros e' _. exists k, (ev_stdout evs1). rewrite Hs, app_nil_r.
    split; [exact (nth_error_some_lt _ _ _ Hk)|]. now split.
Qed.

Lemma unwritable_source_ends_the_loop :
  let r := for_enumerate 0 ["webpack:///a.js"; ""; "b.js"]
             (remote_source_f no_faults offline_world "out" "http://site/js/app.js"
                "app.js.map" "" [Some "x"; Some "y"; Some "z"])
             initial in
  fst r = Raise (OSError "[Errno 21] Is a directory: 'out/'") /\
  stdout (snd r) = [" - Saved: a.js"] /\
  exists k lines,
    k < 3 /\
    stdout (snd r) = (stdout initial ++ lines)%list /\
    Forall2 (fun src line =>
               line = " - Saved: " ++ sanitize src "" \/
               line = " - Could not obtain content for source: " ++ src)
            (firstn k ["webpack:///a.js"; ""; "b.js"]) lines.
Proof.
  split; [reflexivity|]. split; [reflexivity|].
  apply (proj2 (remote_loop_reports_each_source no_faults offline_world "out"
                  {| sourceRoot := ""; sources := ["webpack:///a.js"; ""; "b.js"];
                     sourcesContent := [Some "x"; Some "y"; Some "z"] |}
                  "http://site/js/app.js" "app.js.map" initial)
           (OSError "[Errno 21] Is a directory: 'out/'")).
  reflexivity.
Defined.

(** ** Runs in which no call fails *)





Section Agreement.
Context (f : Faults) (w : World).
Variable out_dir : string.
Hypothesis joins : forall base ref, urljoin_error f base ref = None.











End Agreement.



